(** * ChronoCiv sprite generator: a shallow embedding of
      [Tools/generate_sprites.py] and the properties of its pixel-grid
      synthesis, palette resolution and driver.

    Python integers are [Z], strings are [string], dictionaries whose
    iteration order is observed are association lists, the resolution table
    [color_map] is a [gmap string _], and a call that can raise returns an
    [outcome].  The driver's requests to the file system (directories made,
    images saved, the JSON value dumped) are recorded, in order, in a trace
    that is passed along; what it prints to the console is left out.  Of the
    imaging library only the buffer is modelled: creating an image, writing
    one pixel and reading one back. *)

From Stdlib Require Import ZArith Lia.
From stdpp Require Import base option list list_numbers strings gmap fin_maps.

#[local] Set Warnings "-clear-no-such-hyp".

Local Open Scope string_scope.
Local Open Scope list_scope.
Local Open Scope Z_scope.

(** ** Exceptions and the error monad *)

Inductive exn : Type :=
  | IndexError
  | KeyError
  | TypeError
  | ValueError.

Inductive outcome (A : Type) : Type :=
  | Ok (a : A)
  | Raise (e : exn).
Arguments Ok {A} a.
Arguments Raise {A} e.

#[global] Instance outcome_ret : MRet outcome := fun A a => Ok a.
#[global] Instance outcome_bind : MBind outcome :=
  fun A B f m => match m with Ok a => f a | Raise e => Raise e end.

(** [for x in l: s = body(s, x)], stopping at the first exception. *)
Fixpoint for_each {A S : Type} (body : S -> A -> outcome S) (l : list A) (s : S)
  : outcome S :=
  match l with
  | [] => Ok s
  | a :: l' => s' ← body s a; for_each body l' s'
  end.

(** ** Python built-ins used by the generator *)

(** [range(n)]: 0, 1, ..., n-1; empty when [n <= 0]. *)
Definition range (n : Z) : list Z := seqZ 0 n.

(** [len(l)] *)
Definition len {A : Type} (l : list A) : Z := Z.of_nat (length l).

(** [l[i]]: a negative index counts from the end, an index out of range
    raises [IndexError]. *)
Definition getitem {A : Type} (l : list A) (i : Z) : outcome A :=
  let j := if i <? 0 then len l + i else i in
  if (j <? 0) || (len l <=? j) then Raise IndexError
  else match l !! Z.to_nat j with
       | Some a => Ok a
       | None => Raise IndexError
       end.

(** [d[k]] on a dictionary kept as an association list. *)
Fixpoint dict_getitem {V : Type} (d : list (string * V)) (k : string) : outcome V :=
  match d with
  | [] => Raise KeyError
  | (k', v) :: d' => if String.eqb k' k then Ok v else dict_getitem d' k
  end.

(** ** Static tables *)

(** A palette maps a category name to its colours (hex strings); the
    association list keeps the insertion order that [values()] iterates in. *)
Definition Palette : Type := list (string * list string).

Definition PALETTES : list (string * Palette) :=
  [ ("stone_age",
      [ ("skin", ["#D4A574"; "#C49A6C"; "#B8956A"]);
        ("clothing", ["#8B4513"; "#654321"; "#4A3728"]);
        ("hair", ["#2C1810"; "#3D2314"; "#1A0F0A"]);
        ("terrain", ["#7CFC00"; "#228B22"; "#808080"; "#8B7355"]) ]);
    ("ancient",
      [ ("skin", ["#F5D0A9"; "#E5BE98"; "#D4A574"]);
        ("clothing", ["#E6C288"; "#D4B896"; "#C4A876"]);
        ("hair", ["#1A1A1A"; "#3D3D3D"; "#4A4A4A"]);
        ("terrain", ["#DEB887"; "#D2B48C"; "#BC8F8F"; "#8B7355"]) ]);
    ("classical",
      [ ("skin", ["#F5DEB3"; "#FFE4C4"; "#DEB887"]);
        ("clothing", ["#FFFFFF"; "#F5F5DC"; "#E8E8D8"]);
        ("hair", ["#FFD700"; "#DAA520"; "#B8860B"]);
        ("terrain", ["#F5F5F5"; "#D3D3D3"; "#C0C0C0"; "#A9A9A9"]) ]);
    ("medieval",
      [ ("skin", ["#F5DEB3"; "#DEB887"; "#D2B48C"]);
        ("clothing", ["#8B0000"; "#4A0080"; "#000080"; "#2F4F4F"]);
        ("hair", ["#2F2F2F"; "#4A4A4A"; "#696969"]);
        ("terrain", ["#8B4513"; "#A0522D"; "#6B8E23"; "#556B2F"]) ]);
    ("renaissance",
      [ ("skin", ["#FFE4C4"; "#FFDAB9"; "#F5DEB3"]);
        ("clothing", ["#800020"; "#4B0082"; "#00008B"; "#006400"]);
        ("hair", ["#2F2F2F"; "#4A3728"; "#8B4513"]);
        ("terrain", ["#DAA520"; "#B8860B"; "#CD853F"; "#D2691E"]) ]);
    ("industrial",
      [ ("skin", ["#FFE4C4"; "#F5DEB3"; "#DEB887"]);
        ("clothing", ["#2F2F2F"; "#4A4A4A"; "#696969"; "#808080"]);
        ("hair", ["#1A1A1A"; "#2F2F2F"; "#4A4A4A"]);
        ("terrain", ["#696969"; "#808080"; "#A9A9A9"; "#C0C0C0"]) ]);
    ("modern",
      [ ("skin", ["#FFE4C4"; "#F5DEB3"; "#DEB887"; "#C4A574"]);
        ("clothing", ["#000080"; "#8B0000"; "#2F4F4F"; "#4A0080"]);
        ("hair", ["#1A1A1A"; "#4A4A4A"; "#8B4513"; "#D2B48C"]);
        ("terrain", ["#808080"; "#A9A9A9"; "#C0C0C0"; "#D3D3D3"]) ]);
    ("future",
      [ ("skin", ["#E8E8E8"; "#D0D0D0"; "#B8B8B8"]);
        ("clothing", ["#00FFFF"; "#FF00FF"; "#FFFF00"; "#00FF00"]);
        ("hair", ["#00CED1"; "#9400D3"; "#00FF00"; "#FF1493"]);
        ("terrain", ["#1a1a2e"; "#16213e"; "#0f3460"; "#533483"]) ]) ].

Definition ANIMATIONS : list string :=
  ["idle"; "walk"; "run"; "work"; "attack"; "sleep"].

Definition DIRECTIONS : list string := ["up"; "down"; "left"; "right"].

(** ** The image buffer (the part of the imaging library the generator uses) *)

Definition rgba : Type := (Z * Z * Z * Z)%type.

Definition transparent : rgba := (0, 0, 0, 0).

(** What a [color_map] entry holds.  The palette branch stores the colour
    string itself ([color_map[color] = color]); the fixed entries are RGBA
    tuples. *)
Inductive color_value : Type :=
  | Hex (s : string)
  | Rgba (c : rgba).

(** An RGBA image: its size and its rows of pixels, top row first. *)
Record Image : Type := mkImage {
  im_width : Z;
  im_height : Z;
  im_rows : list (list rgba)
}.

(** [Image.new('RGBA', (width, height), fill)]; a negative size is rejected. *)
Definition Image_new (width height : Z) (fill : rgba) : outcome Image :=
  if (width <? 0) || (height <? 0) then Raise ValueError
  else Ok (mkImage width height
             (replicate (Z.to_nat height) (replicate (Z.to_nat width) fill))).

(** [pixels_img[x, y] = v] on the pixel access object of an RGBA image:
    negative coordinates count from the far edge, a coordinate outside the
    image raises [IndexError], and a colour that is a string and not a tuple
    is refused with [TypeError]. *)
Definition setpixel (img : Image) (x y : Z) (v : color_value) : outcome Image :=
  let x' := if x <? 0 then im_width img + x else x in
  let y' := if y <? 0 then im_height img + y else y in
  if (x' <? 0) || (im_width img <=? x') || (y' <? 0) || (im_height img <=? y')
  then Raise IndexError
  else match v with
       | Rgba c =>
           Ok (mkImage (im_width img) (im_height img)
                 (alter (fun row => <[Z.to_nat x' := c]> row) (Z.to_nat y')
                    (im_rows img)))
       | Hex _ => Raise TypeError
       end.

(** Reading a pixel back; [None] outside the buffer. *)
Definition getpixel (img : Image) (x y : Z) : option rgba :=
  if (x <? 0) || (y <? 0) then None
  else row ← im_rows img !! Z.to_nat y; row !! Z.to_nat x.

(** ** [create_pixel_image] *)

(** The resolution table.  [if palette:] is false for [None] and for an
    empty dictionary. *)
Definition color_map_of (palette : option Palette) : gmap string color_value :=
  match palette with
  | Some ((_ :: _) as pal) =>
      let color_map :=
        foldl (fun cm era_colors =>
                 foldl (fun cm color => <[color := Hex color]> cm) cm era_colors)
              (∅ : gmap string color_value) (pal.*2) in
      let color_map := <["transparent" := Rgba (0, 0, 0, 0)]> color_map in
      let color_map := <["#000000" := Rgba (0, 0, 0, 255)]> color_map in
      let color_map := <["#FFFFFF" := Rgba (255, 255, 255, 255)]> color_map in
      let color_map := <["#2F2F2F" := Rgba (47, 47, 47, 255)]> color_map in
      let color_map := <["stone" := Rgba (128, 128, 128, 255)]> color_map in
      <["terrain" := Rgba (139, 69, 19, 255)]> color_map
  | _ =>
      list_to_map
        [ ("transparent", Rgba (0, 0, 0, 0));
          ("#8B4513", Rgba (139, 69, 19, 255));
          ("#228B22", Rgba (34, 139, 34, 255));
          ("#D2B48C", Rgba (210, 180, 140, 255));
          ("#2F2F2F", Rgba (47, 47, 47, 255));
          ("stone", Rgba (128, 128, 128, 255));
          ("terrain", Rgba (139, 69, 19, 255)) ]
  end.

(** The body of the two nested loops at pixel [(x, y)]. *)
Definition paint (color_map : gmap string color_value)
    (pixels : list (list string)) (y : Z) (img : Image) (x : Z) : outcome Image :=
  if y <? len pixels then
    row ← getitem pixels y;
    if x <? len row then
      color_name ← getitem row x;
      match color_map !! color_name with
      | Some v => setpixel img x y v
      | None => Ok img
      end
    else Ok img
  else Ok img.

Definition create_pixel_image (width height : Z) (pixels : list (list string))
    (palette : option Palette) : outcome Image :=
  let color_map := color_map_of palette in
  img ← Image_new width height (0, 0, 0, 0);
  for_each (fun img y => for_each (paint color_map pixels y) (range width) img)
           (range height) img.

(** ** The four region classifiers *)

Definition generate_npc_base_sprite (size : Z * Z) : list (list string) :=
  let '(width, height) := size in
  foldl (fun pixels y =>
           let row :=
             foldl (fun row x =>
                      if y <? 4 then row ++ ["skin"]
                      else if y <? 8 then row ++ ["skin"]
                      else if y <? 16 then row ++ ["clothing"]
                      else row ++ ["clothing"])
                   [] (range width) in
           pixels ++ [row])
        [] (range height).

Definition generate_building_sprite (building_type : string) (size : Z * Z)
  : list (list string) :=
  let '(width, height) := size in
  foldl (fun pixels y =>
           let row :=
             foldl (fun row x =>
                      if y <? 4 then row ++ ["terrain"]
                      else if y <? height - 4 then row ++ ["stone"]
                      else row ++ ["#2F2F2F"])
                   [] (range width) in
           pixels ++ [row])
        [] (range height).

Definition generate_terrain_tile (size : Z * Z) : list (list string) :=
  let '(width, height) := size in
  foldl (fun pixels y =>
           let row := foldl (fun row x => row ++ ["terrain_base"]) [] (range width) in
           pixels ++ [row])
        [] (range height).

Definition generate_ui_icon (icon_type : string) (size : Z * Z)
  : list (list string) :=
  let '(width, height) := size in
  foldl (fun pixels y =>
           let row :=
             foldl (fun row x =>
                      if (y <? 2) || (height - 2 <=? y) || (x <? 2) || (width - 2 <=? x)
                      then row ++ ["border"]
                      else row ++ ["background"])
                   [] (range width) in
           pixels ++ [row])
        [] (range height).

(** Default sizes of the classifiers. *)
Definition npc_default_size : Z * Z := (16, 24).
Definition building_default_size : Z * Z := (32, 32).
Definition terrain_default_size : Z * Z := (16, 16).
Definition icon_default_size : Z * Z := (16, 16).

(** ** Files, paths and the effects of the driver *)

(** A path is its list of components: [Path(s)] is [[s]], [p / c] adds a
    component and [dirname] drops the last one. *)
Definition Path : Type := list string.

Definition Path_of (s : string) : Path := [s].

Definition path_join (p : Path) (c : string) : Path := p ++ [c].

Notation "p // c" := (path_join p c) (at level 40, left associativity).

Definition dirname (p : Path) : Path := removelast p.

(** The values handed to [json.dump]. *)
#[warnings="-register-all"] Inductive json : Type :=
  | JStr (s : string)
  | JInt (n : Z)
  | JBool (b : bool)
  | JArr (items : list json)
  | JObj (fields : list (string * json)).

(** What the generator asks of the file system, in the order it asks. *)
Inductive event : Type :=
  | Mkdir (p : Path) (parents exist_ok : bool)
  | Makedirs (p : Path) (exist_ok : bool)
  | SavePng (p : Path) (img : Image)
  | DumpJson (p : Path) (value : json) (indent : Z).

Definition trace : Type := list event.

Definition mkdir (p : Path) (parents exist_ok : bool) (tr : trace) : outcome trace :=
  Ok (tr ++ [Mkdir p parents exist_ok]).

Definition save_sprite_pil (img : Image) (filepath : Path) (tr : trace)
  : outcome trace :=
  let tr := tr ++ [Makedirs (dirname filepath) true] in
  Ok (tr ++ [SavePng filepath img]).

Definition buildings : list string :=
  ["cave"; "tent"; "campfire"; "hut"; "house"; "castle"; "palace";
   "factory"; "skyscraper"; "temple"; "market"].

Definition terrains : list string :=
  ["grassland"; "forest"; "desert"; "ocean"; "mountain"; "snow"; "swamp"].

Definition icons : list string :=
  ["food"; "wood"; "stone"; "gold"; "iron"; "population"; "science";
   "culture"; "faith"; "happy"; "military"].

Definition generate_all_sprites (output_dir : string) (tr : trace) : outcome trace :=
  let output_path := Path_of output_dir in
  let sprites_path := output_path // "Sprites" in
  let npc_path := sprites_path // "NPCs" in
  let building_path := sprites_path // "Buildings" in
  let terrain_path := sprites_path // "Terrain" in
  let ui_path := sprites_path // "UI" in
  tr ← for_each (fun tr path => mkdir path true true tr)
         [npc_path; building_path; terrain_path; ui_path] tr;
  tr ← for_each (fun tr era =>
         let era_npc_path := npc_path // era in
         tr ← mkdir era_npc_path false true tr;
         for_each (fun tr animation =>
           let anim_path := era_npc_path // animation in
           tr ← mkdir anim_path false true tr;
           for_each (fun tr direction =>
             let base_pixels := generate_npc_base_sprite npc_default_size in
             let filename := (direction ++ ".png")%string in
             let filepath := anim_path // filename in
             palette ← dict_getitem PALETTES era;
             img ← create_pixel_image 16 24 base_pixels (Some palette);
             save_sprite_pil img filepath tr)
           DIRECTIONS tr)
         ANIMATIONS tr)
       (PALETTES.*1) tr;
  tr ← for_each (fun tr building =>
         let building_file := building_path // (building ++ ".png")%string in
         let base_pixels := generate_building_sprite building building_default_size in
         img ← create_pixel_image 32 32 base_pixels None;
         save_sprite_pil img building_file tr)
       buildings tr;
  tr ← for_each (fun tr terrain =>
         let terrain_file := terrain_path // (terrain ++ ".png")%string in
         let base_pixels := generate_terrain_tile terrain_default_size in
         img ← create_pixel_image 16 16 base_pixels None;
         save_sprite_pil img terrain_file tr)
       terrains tr;
  for_each (fun tr icon =>
      let icon_file := ui_path // (icon ++ ".png")%string in
      let base_pixels := generate_ui_icon icon icon_default_size in
      img ← create_pixel_image 16 16 base_pixels None;
      save_sprite_pil img icon_file tr)
    icons tr.

Definition atlas_config : json :=
  JObj [ ("atlas_name", JStr "ChronoCiv_Sprites");
         ("sprites", JArr []);
         ("packing", JObj [ ("power_of_two", JBool true);
                            ("padding", JInt 2);
                            ("extrude", JInt 1) ]) ].

Definition create_sprite_atlas_config (output_dir : string) (tr : trace)
  : outcome trace :=
  let config := atlas_config in
  let output_path := Path_of output_dir in
  let config_file := output_path // "sprite_atlas_config.json" in
  Ok (tr ++ [DumpJson config_file config 2]).

(** [main]; [output] is the parsed [--output] option, which defaults to
    [./Data/Art/Sprites]. *)
Definition default_output : string := "./Data/Art/Sprites".

Definition main (output : option string) (tr : trace) : outcome trace :=
  let args_output := default default_output output in
  tr ← generate_all_sprites args_output tr;
  create_sprite_atlas_config args_output tr.

(** ** Reading grids and images *)

(** The token of a grid at column [x] of row [y], if the grid has one. *)
Definition cell (pixels : list (list string)) (x y : Z) : option string :=
  if (x <? 0) || (y <? 0) then None
  else row ← pixels !! Z.to_nat y; row !! Z.to_nat x.

(** The grid whose cell [(x, y)] is [tok x y]. *)
Definition grid_of (tok : Z -> Z -> string) (size : Z * Z) : list (list string) :=
  (fun y => (fun x => tok x y) <$> range size.1) <$> range size.2.

(** The image [Image.new] returns: every pixel is the fill colour. *)
Definition blank (width height : Z) : Image :=
  mkImage width height
    (replicate (Z.to_nat height) (replicate (Z.to_nat width) transparent)).

(** Every pixel inside the image is fully transparent. *)
Definition fully_transparent (img : Image) : Prop :=
  forall x y, 0 <= x < im_width img -> 0 <= y < im_height img ->
    getpixel img x y = Some (0, 0, 0, 0).

(** ** Definitions used by the statements *)

(** The token each classifier appends at [(x, y)]: the branches of the body
    of its inner loop. *)
Definition npc_token (x y : Z) : string :=
  if y <? 4 then "skin" else if y <? 8 then "skin"
  else if y <? 16 then "clothing" else "clothing".

Definition building_token (height : Z) (x y : Z) : string :=
  if y <? 4 then "terrain" else if y <? height - 4 then "stone" else "#2F2F2F".

Definition icon_token (width height : Z) (x y : Z) : string :=
  if (y <? 2) || (height - 2 <=? y) || (x <? 2) || (width - 2 <=? x)
  then "border" else "background".

(** A pixel the grid does not cover, or whose token is not a key, is skipped. *)
Definition unresolved (color_map : gmap string color_value)
    (pixels : list (list string)) (x y : Z) : Prop :=
  match cell pixels x y with
  | Some color_name => color_map !! color_name = None
  | None => True
  end.

(** The order in which the two nested loops visit the pixels. *)
Definition scan_order (width height : Z) : list (Z * Z) :=
  y ← range height; x ← range width; [(x, y)].

(** The six keys the palette branch adds after the colours. *)
Definition fixed_keys : list string :=
  ["transparent"; "#000000"; "#FFFFFF"; "#2F2F2F"; "stone"; "terrain"].

(** All colour strings of a palette, in the order [values()] lists them. *)
Definition palette_colors (pal : Palette) : list string := mjoin (pal.*2).

(** The default building image: a brown roof band, a gray wall band and a
    dark foundation band. *)
Definition building_image : Image :=
  mkImage 32 32
    (replicate 4 (replicate 32 (139, 69, 19, 255))
     ++ replicate 24 (replicate 32 (128, 128, 128, 255))
     ++ replicate 4 (replicate 32 (47, 47, 47, 255))).

Definition sprites_dir (output_dir : string) : Path := Path_of output_dir // "Sprites".

Definition npc_file (output_dir era animation direction : string) : Path :=
  sprites_dir output_dir // "NPCs" // era // animation // (direction ++ ".png")%string.

Definition building_file (output_dir building : string) : Path :=
  sprites_dir output_dir // "Buildings" // (building ++ ".png")%string.

Definition terrain_file (output_dir terrain : string) : Path :=
  sprites_dir output_dir // "Terrain" // (terrain ++ ".png")%string.

Definition icon_file (output_dir icon : string) : Path :=
  sprites_dir output_dir // "UI" // (icon ++ ".png")%string.

(** Saving one image: the directory is ensured, then the file is written. *)
Definition saved (file : Path) (img : Image) : list event :=
  [Makedirs (dirname file) true; SavePng file img].

Definition setup_events (output_dir : string) : list event :=
  [ Mkdir (sprites_dir output_dir // "NPCs") true true;
    Mkdir (sprites_dir output_dir // "Buildings") true true;
    Mkdir (sprites_dir output_dir // "Terrain") true true;
    Mkdir (sprites_dir output_dir // "UI") true true ].

Definition npc_events (output_dir : string) : list event :=
  era ← PALETTES.*1;
  Mkdir (sprites_dir output_dir // "NPCs" // era) false true ::
  (animation ← ANIMATIONS;
   Mkdir (sprites_dir output_dir // "NPCs" // era // animation) false true ::
   (direction ← DIRECTIONS;
    saved (npc_file output_dir era animation direction) (blank 16 24))).

Definition building_events (output_dir : string) : list event :=
  building ← buildings; saved (building_file output_dir building) building_image.

Definition terrain_events (output_dir : string) : list event :=
  terrain ← terrains; saved (terrain_file output_dir terrain) (blank 16 16).

Definition icon_events (output_dir : string) : list event :=
  icon ← icons; saved (icon_file output_dir icon) (blank 16 16).

Definition sprite_events (output_dir : string) : list event :=
  setup_events output_dir ++ npc_events output_dir
    ++ building_events output_dir ++ terrain_events output_dir
    ++ icon_events output_dir.

(** The images a trace saves, with their paths, in order. *)
Definition saved_images (tr : list event) : list (Path * Image) :=
  omap (fun ev => match ev with SavePng p img => Some (p, img) | _ => None end) tr.

(** The row bands as the specification lists them, in its order: the
    condition on the row [y], and the token of the band. *)
Definition spec_building_bands (H : Z) : list ((Z -> bool) * string) :=
  [ (fun y => y <? 4, "terrain");
    (fun y => (4 <=? y) && (y <? H - 4), "stone");
    (fun y => H - 4 <=? y, "#2F2F2F") ].

Definition spec_npc_bands : list ((Z -> bool) * string) :=
  [ (fun y => y <? 4, "skin");
    (fun y => (4 <=? y) && (y <? 8), "skin");
    (fun y => (8 <=? y) && (y <? 16), "clothing");
    (fun y => 16 <=? y, "clothing") ].

(** The tokens of the bands whose condition holds at row [y], in order. *)
Definition matching_bands (bands : list ((Z -> bool) * string)) (y : Z)
  : list string :=
  (List.filter (fun band => band.1 y) bands).*2.

Definition first_matching (bands : list ((Z -> bool) * string)) (y : Z)
  : option string := head (matching_bands bands y).

Definition last_matching (bands : list ((Z -> bool) * string)) (y : Z)
  : option string := last (matching_bands bands y).

Definition has_size (width height : Z) (img : Image) : Prop :=
  im_width img = width /\ im_height img = height.

(** A token inside the image that resolves to a colour string. *)
Definition hex_hit (color_map : gmap string color_value)
    (pixels : list (list string)) (width height : Z) : Prop :=
  exists x y tok s, 0 <= x < width /\ 0 <= y < height /\
    cell pixels x y = Some tok /\ color_map !! tok = Some (Hex s).

(** [PALETTES[era]], as the argument the driver passes on. *)
Definition palette_of (era : string) : option Palette :=
  match dict_getitem PALETTES era with
  | Ok palette => Some palette
  | Raise _ => None
  end.

(** A grid with fewer rows than the image and every row shorter than the
    image is wide. *)
Definition grid_smaller (pixels : list (list string)) (width height : Z) : Prop :=
  len pixels < height /\ Forall (fun row => len row < width) pixels.

(** The buffer has [height] rows of [width] pixels. *)
Definition well_formed (width height : Z) (img : Image) : Prop :=
  has_size width height img /\
  length (im_rows img) = Z.to_nat height /\
  Forall (fun row => length row = Z.to_nat width) (im_rows img).

(** The colour the rasterizer gives pixel [(x, y)]: the RGBA value of the
    token when the grid covers the pixel and the token is a key, and
    (0,0,0,0) otherwise. *)
Definition resolved (color_map : gmap string color_value)
    (pixels : list (list string)) (x y : Z) : rgba :=
  match cell pixels x y with
  | Some color_name =>
      match color_map !! color_name with
      | Some (Rgba c) => c
      | _ => (0, 0, 0, 0)
      end
  | None => (0, 0, 0, 0)
  end.

(** After the loop has visited the pixels [visited], those hold their
    resolved colour and all others are still (0,0,0,0). *)
Definition painted (color_map : gmap string color_value)
    (pixels : list (list string)) (width height : Z) (visited : list (Z * Z))
    (img : Image) : Prop :=
  well_formed width height img /\
  forall x y, 0 <= x < width -> 0 <= y < height ->
    getpixel img x y =
      Some (if decide ((x, y) ∈ visited) then resolved color_map pixels x y
            else (0, 0, 0, 0)).

(** The RGBA values held by the fixed entries of the two resolution
    tables (lines 81 to 86 and 89 to 95 of the source). *)
Definition table_colors : list rgba :=
  [ (0, 0, 0, 0); (0, 0, 0, 255); (255, 255, 255, 255); (47, 47, 47, 255);
    (128, 128, 128, 255); (139, 69, 19, 255); (34, 139, 34, 255);
    (210, 180, 140, 255) ].

(** The paths a trace writes a file to (an image or the JSON value), in
    order. *)
Definition written_paths (tr : list event) : list Path :=
  omap (fun ev => match ev with
                  | SavePng p _ => Some p
                  | DumpJson p _ _ => Some p
                  | _ => None
                  end) tr.



(** A path with the directories above it, outermost first:
    [a/b/c] gives [a], [a/b], [a/b/c]. *)
Fixpoint ancestors_and_self (p : Path) : list Path :=
  match p with
  | [] => []
  | c :: p' => [c] :: (cons c <$> ancestors_and_self p')
  end.

(** The directories that exist once a request has been served:
    [mkdir(parents=True)] and [os.makedirs] make the directory and every
    missing one above it, [mkdir] without [parents] makes the directory
    alone. *)
Definition dirs_made (ev : event) : list Path :=
  match ev with
  | Mkdir p true _ => ancestors_and_self p
  | Mkdir p false _ => [p]
  | Makedirs p _ => ancestors_and_self p
  | SavePng _ _ => []
  | DumpJson _ _ _ => []
  end.

(** The directory that has to exist for a request to be served: the parent
    for [mkdir] without [parents], and the directory of the file for saving
    an image and for opening the JSON file. *)
Definition dir_needed (ev : event) : option Path :=
  match ev with
  | Mkdir p false _ => Some (dirname p)
  | Mkdir _ true _ => None
  | Makedirs _ _ => None
  | SavePng p _ => Some (dirname p)
  | DumpJson p _ _ => Some (dirname p)
  end.

(** Starting with the directories [dirs], every request of the trace finds
    the directory it needs among those that exist by then. *)
Fixpoint requests_in_order (dirs : list Path) (tr : list event) : Prop :=
  match tr with
  | [] => True
  | ev :: rest =>
      (forall d, dir_needed ev = Some d -> d ∈ dirs) /\
      requests_in_order (dirs_made ev ++ dirs) rest
  end.

(** The directories [required] are enough for the trace to be in order. *)
Definition in_order_given (required : list Path) (tr : list event) : Prop :=
  forall dirs, required ⊆ dirs -> requests_in_order dirs tr.

(** * Lemmas *)

Section loops.
Context {A S : Type}.
Implicit Types (body : S -> A -> outcome S) (l : list A) (s : S).

Lemma for_each_app body l1 l2 s :
  for_each body (l1 ++ l2) s = s' ← for_each body l1 s; for_each body l2 s'.
Proof.
  revert s. induction l1 as [|a l1 IH]; intros s; simpl; [done|].
  destruct (body s a) as [s'|e]; simpl; [apply IH|done].
Qed.

Lemma for_each_skip body l s :
  (forall a, a ∈ l -> body s a = Ok s) -> for_each body l s = Ok s.
Proof.
  induction l as [|a l IH]; intros Hb; simpl; [done|].
  rewrite Hb by left. simpl. apply IH. intros b Hin. apply Hb. by right.
Qed.

Lemma for_each_invariant (P : S -> Prop) body l s s' :
  (forall t a t', a ∈ l -> P t -> body t a = Ok t' -> P t') ->
  P s -> for_each body l s = Ok s' -> P s'.
Proof.
  revert s. induction l as [|a l IH]; intros s Hb Hs Hrun; simpl in Hrun.
  - by inversion Hrun; subst.
  - destruct (body s a) as [t|e] eqn:Hstep; simpl in Hrun; [|done].
    apply (IH t); [|by eapply Hb; [left|..]|done].
    intros u b u' Hin. apply Hb. by right.
Qed.

End loops.

(** A loop whose every round appends the events [g a] to the trace. *)
Lemma for_each_emit {A : Type} (body : trace -> A -> outcome trace)
    (g : A -> list event) (l : list A) (tr : trace) :
  (forall a t, a ∈ l -> body t a = Ok (t ++ g a)) ->
  for_each body l tr = Ok (tr ++ (l ≫= g)).
Proof.
  revert tr. induction l as [|a l IH]; intros tr Hb; simpl.
  - by rewrite app_nil_r.
  - rewrite Hb by left. simpl. rewrite IH.
    + by rewrite <-app_assoc.
    + intros b t Hin. apply Hb. by right.
Qed.

Lemma foldl_snoc {A B : Type} (step : list B -> A -> list B) (f : A -> B)
    (init : list B) (l : list A) :
  (forall acc a, step acc a = acc ++ [f a]) ->
  foldl step init l = init ++ (f <$> l).
Proof.
  intros Hstep. revert init. induction l as [|a l IH]; intros init; simpl.
  - by rewrite app_nil_r.
  - rewrite Hstep, IH, <-app_assoc. done.
Qed.

Lemma range_lookup (n : Z) (i : Z) :
  0 <= i < n -> range n !! Z.to_nat i = Some i.
Proof.
  intros Hi. unfold range. rewrite lookup_seqZ_lt by lia. f_equal. lia.
Qed.

Lemma elem_of_range (n i : Z) : i ∈ range n <-> 0 <= i < n.
Proof. unfold range. rewrite elem_of_seqZ. lia. Qed.

Lemma cell_grid_of (tok : Z -> Z -> string) (width height x y : Z) :
  0 <= x < width -> 0 <= y < height ->
  cell (grid_of tok (width, height)) x y = Some (tok x y).
Proof.
  intros Hx Hy. unfold cell, grid_of.
  replace ((x <? 0) || (y <? 0)) with false by lia. simpl.
  rewrite list_lookup_fmap, range_lookup by lia. simpl.
  rewrite list_lookup_fmap, range_lookup by lia. done.
Qed.

Lemma cell_grid_of_outside (tok : Z -> Z -> string) (width height x y : Z) :
  ~ (0 <= x < width /\ 0 <= y < height) ->
  cell (grid_of tok (width, height)) x y = None.
Proof.
  intros Hout. unfold cell, grid_of.
  destruct ((x <? 0) || (y <? 0)) eqn:Hneg; [done|]. simpl.
  rewrite list_lookup_fmap.
  destruct (decide (y < height)) as [Hy|Hy].
  - rewrite range_lookup by lia. simpl.
    rewrite list_lookup_fmap. unfold range.
    rewrite lookup_seqZ_ge; [done|lia].
  - unfold range. rewrite lookup_seqZ_ge; [done|lia].
Qed.

Lemma generate_npc_base_sprite_grid (size : Z * Z) :
  generate_npc_base_sprite size = grid_of npc_token size.
Proof.
  destruct size as [width height]. unfold generate_npc_base_sprite, grid_of.
  rewrite (foldl_snoc _ (fun y => (fun x => npc_token x y) <$> range width)); [done|].
  intros acc y. do 2 f_equal.
  rewrite (foldl_snoc _ (fun x => npc_token x y)); [done|].
  intros row x. unfold npc_token. by repeat case_match.
Qed.

Lemma generate_building_sprite_grid (building_type : string) (size : Z * Z) :
  generate_building_sprite building_type size = grid_of (building_token size.2) size.
Proof.
  destruct size as [width height]. unfold generate_building_sprite, grid_of.
  rewrite (foldl_snoc _ (fun y => (fun x => building_token height x y) <$> range width));
    [done|].
  intros acc y. do 2 f_equal.
  rewrite (foldl_snoc _ (fun x => building_token height x y)); [done|].
  intros row x. unfold building_token. by repeat case_match.
Qed.

Lemma generate_terrain_tile_grid (size : Z * Z) :
  generate_terrain_tile size = grid_of (fun _ _ => "terrain_base") size.
Proof.
  destruct size as [width height]. unfold generate_terrain_tile, grid_of.
  rewrite (foldl_snoc _ (fun y => (fun x => "terrain_base") <$> range width)); [done|].
  intros acc y. do 2 f_equal.
  by rewrite (foldl_snoc _ (fun x => "terrain_base")).
Qed.

Lemma generate_ui_icon_grid (icon_type : string) (size : Z * Z) :
  generate_ui_icon icon_type size = grid_of (icon_token size.1 size.2) size.
Proof.
  destruct size as [width height]. unfold generate_ui_icon, grid_of.
  rewrite (foldl_snoc _ (fun y => (fun x => icon_token width height x y) <$> range width));
    [done|].
  intros acc y. do 2 f_equal.
  rewrite (foldl_snoc _ (fun x => icon_token width height x y)); [done|].
  intros row x. unfold icon_token. by repeat case_match.
Qed.

(** ** The rasterizer *)

Lemma getitem_lookup {A : Type} (l : list A) (i : Z) (a : A) :
  0 <= i -> l !! Z.to_nat i = Some a -> getitem l i = Ok a.
Proof.
  intros Hi Hl. unfold getitem, len.
  apply lookup_lt_Some in Hl as Hlt.
  replace (i <? 0) with false by lia.
  replace ((i <? 0) || (Z.of_nat (length l) <=? i)) with false by lia.
  by rewrite Hl.
Qed.

(** Inside the non-negative quadrant the loop body reads the grid through
    [cell], and touches the image only when the token is a key. *)
Lemma paint_cell (color_map : gmap string color_value)
    (pixels : list (list string)) (img : Image) (x y : Z) :
  0 <= x -> 0 <= y ->
  paint color_map pixels y img x =
    match cell pixels x y with
    | Some color_name =>
        match color_map !! color_name with
        | Some v => setpixel img x y v
        | None => Ok img
        end
    | None => Ok img
    end.
Proof.
  intros Hx Hy. unfold paint, cell, len.
  replace ((x <? 0) || (y <? 0)) with false by lia.
  destruct (y <? Z.of_nat (length pixels)) eqn:Hylt.
  - destruct (lookup_lt_is_Some_2 pixels (Z.to_nat y)) as [row Hrow]; [lia|].
    rewrite (getitem_lookup _ _ _ Hy Hrow), Hrow. simpl.
    destruct (x <? Z.of_nat (length row)) eqn:Hxlt.
    + destruct (lookup_lt_is_Some_2 row (Z.to_nat x)) as [tok Htok]; [lia|].
      by rewrite (getitem_lookup _ _ _ Hx Htok), Htok.
    + rewrite (lookup_ge_None_2 row) by lia. done.
  - rewrite (lookup_ge_None_2 pixels) by lia. done.
Qed.

Lemma paint_skip (color_map : gmap string color_value)
    (pixels : list (list string)) (img : Image) (x y : Z) :
  0 <= x -> 0 <= y -> unresolved color_map pixels x y ->
  paint color_map pixels y img x = Ok img.
Proof.
  intros Hx Hy Hun. rewrite paint_cell by done. unfold unresolved in Hun.
  destruct (cell pixels x y) as [tok|]; [|done]. by rewrite Hun.
Qed.

Lemma Image_new_blank (width height : Z) :
  0 <= width -> 0 <= height ->
  Image_new width height (0, 0, 0, 0) = Ok (blank width height).
Proof.
  intros Hw Hh. unfold Image_new.
  by replace ((width <? 0) || (height <? 0)) with false by lia.
Qed.

Lemma blank_fully_transparent (width height : Z) :
  fully_transparent (blank width height).
Proof.
  intros x y Hx Hy. simpl in Hx, Hy. unfold getpixel, blank. simpl.
  replace ((x <? 0) || (y <? 0)) with false by lia.
  rewrite lookup_replicate_2 by lia. simpl.
  by rewrite lookup_replicate_2 by lia.
Qed.

(** When no pixel of the image resolves, the image comes back as created. *)
Lemma create_pixel_image_blank (width height : Z) (pixels : list (list string))
    (palette : option Palette) :
  0 <= width -> 0 <= height ->
  (forall x y, 0 <= x < width -> 0 <= y < height ->
     unresolved (color_map_of palette) pixels x y) ->
  create_pixel_image width height pixels palette = Ok (blank width height).
Proof.
  intros Hw Hh Hun. unfold create_pixel_image.
  rewrite Image_new_blank by done. simpl.
  apply for_each_skip. intros y Hy%elem_of_range.
  apply for_each_skip. intros x Hx%elem_of_range.
  apply paint_skip; [lia..|]. by apply Hun.
Qed.

(** [setpixel] keeps the size and every pixel but the one it writes. *)
Lemma setpixel_size (img img' : Image) (x y : Z) (v : color_value) :
  setpixel img x y v = Ok img' ->
  im_width img' = im_width img /\ im_height img' = im_height img.
Proof.
  unfold setpixel. intros Hset.
  repeat case_match; try done; by inversion Hset; subst.
Qed.

Lemma setpixel_getpixel_ne (img img' : Image) (x y x0 y0 : Z) (v : color_value) :
  0 <= x -> 0 <= y -> (x, y) <> (x0, y0) ->
  setpixel img x y v = Ok img' ->
  getpixel img' x0 y0 = getpixel img x0 y0.
Proof.
  intros Hx Hy Hne. unfold setpixel.
  replace (x <? 0) with false by lia. replace (y <? 0) with false by lia.
  intros Hset. repeat case_match; try done. inversion Hset; subst; clear Hset.
  unfold getpixel. simpl. destruct ((x0 <? 0) || (y0 <? 0)) eqn:Hneg; [done|].
  destruct (decide (y = y0)) as [->|Hy0].
  - rewrite list_lookup_alter_eq.
    destruct (im_rows img !! Z.to_nat y0) as [row|]; simpl; [|done].
    apply list_lookup_insert_ne. intros Heq. apply Hne. f_equal. lia.
  - rewrite list_lookup_alter_ne by lia. done.
Qed.

Lemma setpixel_rgba (img : Image) (x y : Z) (c : rgba) :
  0 <= x < im_width img -> 0 <= y < im_height img ->
  exists img', setpixel img x y (Rgba c) = Ok img'.
Proof.
  intros Hx Hy. unfold setpixel.
  replace (x <? 0) with false by lia. replace (y <? 0) with false by lia.
  replace ((x <? 0) || (im_width img <=? x) || (y <? 0) || (im_height img <=? y))
    with false by lia.
  eauto.
Qed.

Lemma for_each_nested {A B S : Type} (body : A -> S -> B -> outcome S)
    (outer : list A) (inner : list B) (s : S) :
  for_each (fun s a => for_each (body a) inner s) outer s =
  for_each (fun s p => body p.2 s p.1) (a ← outer; b ← inner; [(b, a)]) s.
Proof.
  revert s. induction outer as [|a outer IH]; intros s; [done|].
  simpl. rewrite for_each_app.
  assert (Hin : forall t, for_each (body a) inner t =
            for_each (fun s p => body p.2 s p.1) (b ← inner; [(b, a)]) t).
  { clear. induction inner as [|b inner IHi]; intros t; [done|].
    simpl. destruct (body a t b); simpl; [apply IHi|done]. }
  rewrite Hin. destruct (for_each _ (b ← inner; [(b, a)]) s); simpl; [apply IH|done].
Qed.

Lemma create_pixel_image_scan (width height : Z) (pixels : list (list string))
    (palette : option Palette) :
  create_pixel_image width height pixels palette =
    img ← Image_new width height (0, 0, 0, 0);
    for_each (fun img p => paint (color_map_of palette) pixels p.2 img p.1)
             (scan_order width height) img.
Proof.
  unfold create_pixel_image, scan_order.
  destruct (Image_new width height (0, 0, 0, 0)) as [img|e]; simpl; [|done].
  apply (for_each_nested (paint (color_map_of palette) pixels)).
Qed.

Lemma elem_of_scan_order (width height x y : Z) :
  (x, y) ∈ scan_order width height <-> 0 <= x < width /\ 0 <= y < height.
Proof.
  unfold scan_order. rewrite list_elem_of_bind. split.
  - intros (y' & Hin & Hy'%elem_of_range).
    apply list_elem_of_bind in Hin as (x' & Hin & Hx'%elem_of_range).
    apply list_elem_of_singleton in Hin. by inversion Hin; subst.
  - intros [Hx Hy]. exists y. split; [|by apply elem_of_range].
    apply list_elem_of_bind. exists x. split; [by left|by apply elem_of_range].
Qed.

(** ** The resolution table *)

Lemma foldl_insert_hex_lookup (colors : list string) (cm : gmap string color_value)
    (k : string) :
  k ∉ colors ->
  foldl (fun cm color => <[color := Hex color]> cm) cm colors !! k = cm !! k.
Proof.
  revert cm. induction colors as [|c colors IH]; intros cm Hk; simpl; [done|].
  apply not_elem_of_cons in Hk as [Hne Hk].
  rewrite IH by done. by rewrite lookup_insert_ne.
Qed.

Lemma foldl_palette_lookup (lists : list (list string))
    (cm : gmap string color_value) (k : string) :
  k ∉ mjoin lists ->
  foldl (fun cm era_colors =>
           foldl (fun cm color => <[color := Hex color]> cm) cm era_colors)
        cm lists !! k = cm !! k.
Proof.
  revert cm. induction lists as [|l lists IH]; intros cm Hk; simpl; [done|].
  simpl in Hk. apply not_elem_of_app in Hk as [Hl Hk].
  rewrite IH by done. by apply foldl_insert_hex_lookup.
Qed.

(** With a (non-empty) palette, a token is a key only if it is one of the
    palette's colour strings or one of the six fixed keys: category names
    are not. *)
Lemma color_map_of_palette_None (pal : Palette) (k : string) :
  pal <> [] -> k ∉ palette_colors pal -> k ∉ fixed_keys ->
  color_map_of (Some pal) !! k = None.
Proof.
  intros Hpal Hcol Hfix. unfold color_map_of.
  destruct pal as [|entry pal]; [done|].
  unfold fixed_keys in Hfix.
  rewrite !lookup_insert_ne by set_solver.
  rewrite foldl_palette_lookup by done. done.
Qed.

(** Without a palette every entry of the table is an RGBA tuple. *)
Lemma color_map_of_None_rgba (k : string) (v : color_value) :
  color_map_of None !! k = Some v -> exists c, v = Rgba c.
Proof.
  unfold color_map_of. intros Hl%elem_of_list_to_map_2.
  repeat (apply elem_of_cons in Hl as [Hl|Hl]; [inversion Hl; subst; eauto|]).
  by apply elem_of_nil in Hl.
Qed.

Lemma PALETTES_getitem (era : string) :
  era ∈ PALETTES.*1 ->
  exists palette, dict_getitem PALETTES era = Ok palette /\ (era, palette) ∈ PALETTES.
Proof.
  intros Hin. simpl in Hin.
  repeat (apply elem_of_cons in Hin as [->|Hin];
          [eexists; split; [reflexivity|unfold PALETTES; set_solver]|]).
  by apply elem_of_nil in Hin.
Qed.

(** No palette of the table lists a category name as a colour, so the
    tokens of the character classifier are not keys. *)
Lemma PALETTES_category_tokens (era : string) (palette : Palette) (k : string) :
  (era, palette) ∈ PALETTES -> k ∈ ["skin"; "clothing"; "hair"] ->
  color_map_of (Some palette) !! k = None.
Proof.
  intros Hin Hk.
  assert (Hall : Forall (fun ep : string * Palette =>
            Forall (fun k => ep.2 ≠ [] ∧ (k ∉ palette_colors (ep.2)) ∧ (k ∉ fixed_keys))
                   ["skin"; "clothing"; "hair"]) PALETTES).
  { apply (bool_decide_unpack _). by vm_compute. }
  rewrite Forall_forall in Hall. specialize (Hall _ Hin).
  rewrite Forall_forall in Hall. destruct (Hall _ Hk) as (Hp & Hc & Hf).
  by apply color_map_of_palette_None.
Qed.

(** ** The images the driver produces *)

Lemma bind_Ok {A B : Type} (a : A) (f : A -> outcome B) : (Ok a ≫= f) = f a.
Proof. done. Qed.

Lemma unresolved_grid_of (color_map : gmap string color_value)
    (tok : Z -> Z -> string) (size : Z * Z) (x y : Z) :
  (forall x y, color_map !! tok x y = None) ->
  unresolved color_map (grid_of tok size) x y.
Proof.
  intros Hmiss. unfold unresolved. destruct size as [width height].
  destruct (decide (0 <= x < width /\ 0 <= y < height)) as [[Hx Hy]|Hout].
  - by rewrite cell_grid_of.
  - by rewrite cell_grid_of_outside.
Qed.

Lemma npc_token_cases (x y : Z) : npc_token x y ∈ ["skin"; "clothing"].
Proof. unfold npc_token. repeat case_match; set_solver. Qed.

Lemma icon_token_cases (width height x y : Z) :
  icon_token width height x y ∈ ["border"; "background"].
Proof. unfold icon_token. case_match; set_solver. Qed.

(** A character grid rasterized with a palette of the table stays blank,
    whatever the sizes of the grid and of the image. *)
Lemma npc_image_blank (era : string) (palette : Palette) (size : Z * Z)
    (width height : Z) :
  (era, palette) ∈ PALETTES -> 0 <= width -> 0 <= height ->
  create_pixel_image width height (generate_npc_base_sprite size) (Some palette)
  = Ok (blank width height).
Proof.
  intros Hin Hw Hh. apply create_pixel_image_blank; [done..|].
  intros x y _ _. rewrite generate_npc_base_sprite_grid.
  apply unresolved_grid_of. clear x y. intros x y.
  apply (PALETTES_category_tokens era); [done|].
  pose proof (npc_token_cases x y). set_solver.
Qed.

Lemma terrain_image_blank (size : Z * Z) (width height : Z) :
  0 <= width -> 0 <= height ->
  create_pixel_image width height (generate_terrain_tile size) None
  = Ok (blank width height).
Proof.
  intros Hw Hh. apply create_pixel_image_blank; [done..|].
  intros x y _ _. rewrite generate_terrain_tile_grid.
  by apply unresolved_grid_of.
Qed.

Lemma icon_image_blank (icon_type : string) (size : Z * Z) (width height : Z) :
  0 <= width -> 0 <= height ->
  create_pixel_image width height (generate_ui_icon icon_type size) None
  = Ok (blank width height).
Proof.
  intros Hw Hh. apply create_pixel_image_blank; [done..|].
  intros x y _ _. rewrite generate_ui_icon_grid.
  apply unresolved_grid_of. clear x y. intros x y.
  pose proof (icon_token_cases size.1 size.2 x y) as Hc.
  apply elem_of_cons in Hc as [->|Hc]; [done|].
  apply list_elem_of_singleton in Hc as ->. done.
Qed.

Lemma building_image_default (building_type : string) :
  create_pixel_image 32 32
    (generate_building_sprite building_type building_default_size) None
  = Ok building_image.
Proof. by vm_compute. Qed.

(** ** The trace of the driver *)

(** The driver never raises, and these are the requests it makes. *)
Lemma generate_all_sprites_trace (output_dir : string) (tr : trace) :
  generate_all_sprites output_dir tr =
    Ok (tr ++ setup_events output_dir ++ npc_events output_dir
           ++ building_events output_dir ++ terrain_events output_dir
           ++ icon_events output_dir).
Proof.
  unfold generate_all_sprites.
  rewrite (for_each_emit _ (fun path => [Mkdir path true true])) by done.
  rewrite bind_Ok.
  rewrite (for_each_emit _ (fun era =>
    Mkdir (sprites_dir output_dir // "NPCs" // era) false true ::
    (animation ← ANIMATIONS;
     Mkdir (sprites_dir output_dir // "NPCs" // era // animation) false true ::
     (direction ← DIRECTIONS;
      saved (npc_file output_dir era animation direction) (blank 16 24))))).
  2:{ intros era t Hera. unfold mkdir. rewrite bind_Ok.
      rewrite (for_each_emit _ (fun animation =>
        Mkdir (sprites_dir output_dir // "NPCs" // era // animation) false true ::
        (direction ← DIRECTIONS;
         saved (npc_file output_dir era animation direction) (blank 16 24)))).
      - by rewrite <-app_assoc.
      - intros animation t' _. rewrite bind_Ok.
        rewrite (for_each_emit _ (fun direction =>
          saved (npc_file output_dir era animation direction) (blank 16 24))).
        + by rewrite <-app_assoc.
        + intros direction t'' _.
          destruct (PALETTES_getitem era Hera) as (palette & -> & Hin).
          rewrite bind_Ok.
          rewrite (npc_image_blank era) by done. rewrite bind_Ok.
          unfold save_sprite_pil, saved. by rewrite <-app_assoc. }
  rewrite bind_Ok.
  rewrite (for_each_emit _ (fun building =>
    saved (building_file output_dir building) building_image)).
  2:{ intros building t _. rewrite building_image_default, bind_Ok.
      unfold save_sprite_pil, saved. by rewrite <-app_assoc. }
  rewrite bind_Ok.
  rewrite (for_each_emit _ (fun terrain =>
    saved (terrain_file output_dir terrain) (blank 16 16))).
  2:{ intros terrain t _. rewrite terrain_image_blank, bind_Ok by done.
      unfold save_sprite_pil, saved. by rewrite <-app_assoc. }
  rewrite bind_Ok.
  rewrite (for_each_emit _ (fun icon =>
    saved (icon_file output_dir icon) (blank 16 16))).
  2:{ intros icon t _. rewrite icon_image_blank, bind_Ok by done.
      unfold save_sprite_pil, saved. by rewrite <-app_assoc. }
  by rewrite <-!app_assoc.
Qed.

Lemma elem_of_saved_images (tr : list event) (p : Path) (img : Image) :
  (p, img) ∈ saved_images tr <-> SavePng p img ∈ tr.
Proof.
  unfold saved_images. rewrite list_elem_of_omap. split.
  - intros (ev & Hin & Hev). destruct ev; try done. by inversion Hev; subst.
  - intros Hin. by exists (SavePng p img).
Qed.

Lemma SavePng_saved (file p : Path) (img img' : Image) :
  SavePng p img' ∈ saved file img <-> p = file /\ img' = img.
Proof.
  unfold saved. rewrite !elem_of_cons, elem_of_nil. split.
  - intros [Heq|[Heq|[]]]; [done|]. by inversion Heq.
  - intros [-> ->]. right. by left.
Qed.

Lemma SavePng_npc_events (output_dir : string) (p : Path) (img : Image) :
  SavePng p img ∈ npc_events output_dir <->
  exists era animation direction,
    era ∈ PALETTES.*1 /\ animation ∈ ANIMATIONS /\ direction ∈ DIRECTIONS /\
    p = npc_file output_dir era animation direction /\ img = blank 16 24.
Proof.
  unfold npc_events. rewrite list_elem_of_bind. split.
  - intros (era & Hin & Hera). apply elem_of_cons in Hin as [Heq|Hin]; [done|].
    apply list_elem_of_bind in Hin as (animation & Hin & Hanim).
    apply elem_of_cons in Hin as [Heq|Hin]; [done|].
    apply list_elem_of_bind in Hin as (direction & Hin & Hdir).
    apply SavePng_saved in Hin as [-> ->]. by exists era, animation, direction.
  - intros (era & animation & direction & Hera & Hanim & Hdir & -> & ->).
    exists era. split; [|done]. right.
    apply list_elem_of_bind. exists animation. split; [|done]. right.
    apply list_elem_of_bind. exists direction. split; [|done].
    by apply SavePng_saved.
Qed.

Lemma SavePng_building_events (output_dir : string) (p : Path) (img : Image) :
  SavePng p img ∈ building_events output_dir <->
  exists building, building ∈ buildings /\
    p = building_file output_dir building /\ img = building_image.
Proof.
  unfold building_events. rewrite list_elem_of_bind.
  split; intros (b & H1 & H2); exists b.
  - by apply SavePng_saved in H1 as [-> ->].
  - destruct H2 as [-> ->]. split; [|done]. by apply SavePng_saved.
Qed.

Lemma SavePng_terrain_events (output_dir : string) (p : Path) (img : Image) :
  SavePng p img ∈ terrain_events output_dir <->
  exists terrain, terrain ∈ terrains /\
    p = terrain_file output_dir terrain /\ img = blank 16 16.
Proof.
  unfold terrain_events. rewrite list_elem_of_bind.
  split; intros (t & H1 & H2); exists t.
  - by apply SavePng_saved in H1 as [-> ->].
  - destruct H2 as [-> ->]. split; [|done]. by apply SavePng_saved.
Qed.

Lemma SavePng_icon_events (output_dir : string) (p : Path) (img : Image) :
  SavePng p img ∈ icon_events output_dir <->
  exists icon, icon ∈ icons /\
    p = icon_file output_dir icon /\ img = blank 16 16.
Proof.
  unfold icon_events. rewrite list_elem_of_bind.
  split; intros (t & H1 & H2); exists t.
  - by apply SavePng_saved in H1 as [-> ->].
  - destruct H2 as [-> ->]. split; [|done]. by apply SavePng_saved.
Qed.

(** Every image the driver saves is one of these four kinds. *)
Lemma SavePng_sprite_events (output_dir : string) (p : Path) (img : Image) :
  SavePng p img ∈ sprite_events output_dir <->
  SavePng p img ∈ npc_events output_dir \/
  SavePng p img ∈ building_events output_dir \/
  SavePng p img ∈ terrain_events output_dir \/
  SavePng p img ∈ icon_events output_dir.
Proof.
  unfold sprite_events. rewrite !elem_of_app. split; [|tauto].
  intros [Hin|H]; [|tauto].
  unfold setup_events in Hin. rewrite !elem_of_cons, elem_of_nil in Hin.
  by destruct Hin as [?|[?|[?|[?|[]]]]].
Qed.

(** Paths of the four kinds are told apart by their length or their
    third component. *)
Lemma npc_file_not_other (output_dir era animation direction name : string) :
  npc_file output_dir era animation direction <> building_file output_dir name /\
  npc_file output_dir era animation direction <> terrain_file output_dir name /\
  npc_file output_dir era animation direction <> icon_file output_dir name.
Proof. by repeat split. Qed.

Lemma kind_files_distinct (output_dir a b : string) :
  building_file output_dir a <> terrain_file output_dir b /\
  building_file output_dir a <> icon_file output_dir b /\
  terrain_file output_dir a <> icon_file output_dir b.
Proof. by repeat split. Qed.

Lemma blank_size (width height : Z) :
  0 <= width -> 0 <= height ->
  length (im_rows (blank width height)) = Z.to_nat height /\
  Forall (fun row => length row = Z.to_nat width) (im_rows (blank width height)).
Proof.
  intros Hw Hh. simpl. split; [by rewrite length_replicate|].
  apply Forall_replicate. by rewrite length_replicate.
Qed.

Lemma cell_grid_of_Some (tok : Z -> Z -> string) (size : Z * Z) (x y : Z) (t : string) :
  cell (grid_of tok size) x y = Some t ->
  t = tok x y /\ 0 <= x < size.1 /\ 0 <= y < size.2.
Proof.
  destruct size as [width height]. intros Hc.
  destruct (decide (0 <= x < width /\ 0 <= y < height)) as [[Hx Hy]|Hout].
  - rewrite cell_grid_of in Hc by done. by inversion Hc.
  - by rewrite cell_grid_of_outside in Hc.
Qed.

(** ** Scan order *)

Lemma bind_singleton_fmap {A B : Type} (f : A -> B) (l : list A) :
  (a ← l; [f a]) = f <$> l.
Proof. induction l as [|a l IH]; [done|]. csimpl. by rewrite IH. Qed.

Lemma lookup_bind_same_length {A B : Type} (f : A -> list B) (n : nat)
    (l : list A) (j i : nat) :
  (forall a, length (f a) = n) -> (i < n)%nat ->
  (l ≫= f) !! (j * n + i)%nat = (a ← l !! j; f a !! i).
Proof.
  intros Hlen Hi. revert j. induction l as [|a l IH]; intros j; [done|].
  change ((a :: l) ≫= f) with (f a ++ (l ≫= f)).
  destruct j as [|j]; simpl.
  - rewrite lookup_app_l by (rewrite Hlen; lia). done.
  - rewrite lookup_app_r by (rewrite Hlen; lia).
    rewrite Hlen. replace (n + j * n + i - n)%nat with (j * n + i)%nat by lia.
    apply IH.
Qed.

(** The [k]-th pixel visited is column [k mod width] of row [k / width]:
    rows from the top, each row from the left. *)
Lemma scan_order_lookup (width height k : Z) :
  0 <= width -> 0 <= height -> 0 <= k < width * height ->
  scan_order width height !! Z.to_nat k = Some (k mod width, k / width).
Proof.
  intros Hw0 Hh0 Hk.
  assert (Hw : 0 < width) by nia.
  assert (Hdiv : 0 <= k / width < height).
  { split; [apply Z.div_pos; lia|]. apply Z.div_lt_upper_bound; lia. }
  assert (Hmod : 0 <= k mod width < width) by (apply Z.mod_pos_bound; lia).
  unfold scan_order.
  replace (Z.to_nat k)
    with (Z.to_nat (k / width) * Z.to_nat width + Z.to_nat (k mod width))%nat.
  2:{ apply Nat2Z.inj. rewrite Nat2Z.inj_add, Nat2Z.inj_mul, !Z2Nat.id by lia.
      rewrite (Z.div_mod k width) at 3 by lia. lia. }
  rewrite (lookup_bind_same_length _ (Z.to_nat width)).
  - rewrite range_lookup by lia. simpl.
    rewrite bind_singleton_fmap, list_lookup_fmap, range_lookup by lia. done.
  - intros y. rewrite bind_singleton_fmap, length_fmap. unfold range.
    by rewrite length_seqZ.
  - lia.
Qed.

Lemma scan_order_length (width height : Z) :
  0 <= width -> 0 <= height ->
  length (scan_order width height) = Z.to_nat (width * height).
Proof.
  intros Hw Hh. unfold scan_order, range.
  assert (Hgen : forall (l : list Z),
    length (y ← l; x ← seqZ 0 width; [(x, y)]) = (length l * Z.to_nat width)%nat).
  { induction l as [|y l IH]; [done|].
    change ((y :: l) ≫= (fun y => x ← seqZ 0 width; [(x, y)]))
      with ((x ← seqZ 0 width; [(x, y)]) ++ (y ← l; x ← seqZ 0 width; [(x, y)])).
    rewrite length_app, IH, bind_singleton_fmap, length_fmap, length_seqZ.
    simpl. lia. }
  rewrite Hgen, length_seqZ. nia.
Qed.

(** ** Failure and the final image *)

Section loop_outcomes.
Context {A S : Type}.
Implicit Types (body : S -> A -> outcome S) (l : list A) (s : S).

(** A loop whose rounds keep [P] and can only raise [e]. *)
Lemma for_each_only_raises (P : S -> Prop) (e : exn) body l s :
  (forall t a, a ∈ l -> P t ->
     (exists t', body t a = Ok t' /\ P t') \/ body t a = Raise e) ->
  P s ->
  (exists s', for_each body l s = Ok s' /\ P s') \/ for_each body l s = Raise e.
Proof.
  revert s. induction l as [|a l IH]; intros s Hb Hs; simpl; [by left; eauto|].
  destruct (Hb s a) as [(t & -> & Ht)| ->]; [by left|done| |by right].
  simpl. apply IH; [|done]. intros u b Hin. apply Hb. by right.
Qed.

(** A loop whose rounds keep [P] and never raise. *)
Lemma for_each_total (P : S -> Prop) body l s :
  (forall t a, a ∈ l -> P t -> exists t', body t a = Ok t' /\ P t') ->
  P s -> exists s', for_each body l s = Ok s' /\ P s'.
Proof.
  revert s. induction l as [|a l IH]; intros s Hb Hs; simpl; [by eauto|].
  destruct (Hb s a) as (t & -> & Ht); [by left|done|].
  simpl. apply IH; [|done]. intros u b Hin. apply Hb. by right.
Qed.

End loop_outcomes.

(** One round of the loop, inside the image: it returns an image of the
    same size, or the token resolved to a colour string and the write is
    refused. *)
Lemma paint_outcome (color_map : gmap string color_value)
    (pixels : list (list string)) (width height x y : Z) (img : Image) :
  has_size width height img -> 0 <= x < width -> 0 <= y < height ->
  (exists img', paint color_map pixels y img x = Ok img' /\
                has_size width height img') \/
  (paint color_map pixels y img x = Raise TypeError /\
   exists tok s, cell pixels x y = Some tok /\ color_map !! tok = Some (Hex s)).
Proof.
  intros [Hw Hh] Hx Hy. rewrite paint_cell by lia.
  destruct (cell pixels x y) as [tok|] eqn:Hcell;
    [|left; exists img; by repeat split].
  destruct (color_map !! tok) as [[s|c]|] eqn:Hlook;
    [| |left; exists img; by repeat split].
  - right. split; [|by eauto]. unfold setpixel. rewrite Hw, Hh.
    replace (x <? 0) with false by lia. replace (y <? 0) with false by lia.
    by replace ((x <? 0) || (width <=? x) || (y <? 0) || (height <=? y))
      with false by lia.
  - left. destruct (setpixel_rgba img x y c) as [img' Hset]; [lia..|].
    exists img'. split; [done|].
    apply setpixel_size in Hset as [? ?]. split; congruence.
Qed.

Lemma for_each_Ok_rounds {A S : Type} (P : S -> Prop)
    (body : S -> A -> outcome S) (l : list A) (s s' : S) :
  (forall t a t', a ∈ l -> P t -> body t a = Ok t' -> P t') ->
  P s -> for_each body l s = Ok s' ->
  forall a, a ∈ l -> exists t t', P t /\ body t a = Ok t'.
Proof.
  revert s. induction l as [|b l IH]; intros s Hb Hs Hrun a Hin.
  - by apply elem_of_nil in Hin.
  - simpl in Hrun. destruct (body s b) as [t|e] eqn:Hstep; [|done].
    simpl in Hrun. apply elem_of_cons in Hin as [->|Hin]; [by eauto|].
    apply (IH t); [|by eapply Hb; [left|..]|done..].
    intros u c u' Hc. apply Hb. by right.
Qed.

Lemma blank_has_size (width height : Z) : has_size width height (blank width height).
Proof. done. Qed.

(** For a non-negative size the rasterizer returns an image of that size or
    raises [TypeError]; it never raises [IndexError], whatever the grid. *)
Lemma create_pixel_image_outcome (width height : Z) (pixels : list (list string))
    (palette : option Palette) :
  0 <= width -> 0 <= height ->
  (exists img, create_pixel_image width height pixels palette = Ok img /\
               has_size width height img) \/
  create_pixel_image width height pixels palette = Raise TypeError.
Proof.
  intros Hw Hh. rewrite create_pixel_image_scan, Image_new_blank, bind_Ok by done.
  apply (for_each_only_raises (has_size width height)); [|apply blank_has_size].
  intros img [x y] [Hx Hy]%elem_of_scan_order Hsize.
  destruct (paint_outcome (color_map_of palette) pixels width height x y img)
    as [Hok|[Hraise _]]; auto.
Qed.

(** It returns an image exactly when no token inside the image resolves to
    a colour string. *)
Lemma create_pixel_image_Ok_iff (width height : Z) (pixels : list (list string))
    (palette : option Palette) :
  0 <= width -> 0 <= height ->
  (exists img, create_pixel_image width height pixels palette = Ok img) <->
  ~ hex_hit (color_map_of palette) pixels width height.
Proof.
  intros Hw Hh. split.
  - intros [img Hrun] (x & y & tok & s & Hx & Hy & Hcell & Hlook).
    rewrite create_pixel_image_scan, Image_new_blank, bind_Ok in Hrun by done.
    assert (Hkeep : forall t (p : Z * Z) t', p ∈ scan_order width height ->
              has_size width height t ->
              paint (color_map_of palette) pixels p.2 t p.1 = Ok t' ->
              has_size width height t').
    { intros t [x' y'] t' [Hx' Hy']%elem_of_scan_order Hsize Hstep.
      destruct (paint_outcome (color_map_of palette) pixels width height x' y' t)
        as [(u & Hu & Hsu)|[Hraise _]]; [done..| |].
      - simpl in Hstep. rewrite Hu in Hstep. by inversion Hstep; subst.
      - simpl in Hstep. by rewrite Hraise in Hstep. }
    destruct (for_each_Ok_rounds (has_size width height) _ _ _ _
                Hkeep (blank_has_size width height) Hrun (x, y))
      as (t & t' & Hsize & Hstep).
    + by apply elem_of_scan_order.
    + simpl in Hstep. rewrite paint_cell, Hcell, Hlook in Hstep by lia.
      destruct Hsize as [Hsw Hsh]. unfold setpixel in Hstep.
      rewrite Hsw, Hsh in Hstep.
      replace (x <? 0) with false in Hstep by lia.
      replace (y <? 0) with false in Hstep by lia.
      by replace ((x <? 0) || (width <=? x) || (y <? 0) || (height <=? y))
        with false in Hstep by lia.
  - intros Hno.
    rewrite create_pixel_image_scan, Image_new_blank, bind_Ok by done.
    destruct (for_each_total (has_size width height)
                (fun img p => paint (color_map_of palette) pixels p.2 img p.1)
                (scan_order width height) (blank width height))
      as (img & Himg & _); [|apply blank_has_size|by eauto].
    intros t [x y] [Hx Hy]%elem_of_scan_order Hsize.
    destruct (paint_outcome (color_map_of palette) pixels width height x y t)
      as [Hok|[_ (tok & s & Hcell & Hlook)]]; [done..| |].
    + done.
    + exfalso. apply Hno. by exists x, y, tok, s.
Qed.

(** In the image returned, a pixel the grid does not cover or whose token
    is not a key is still (0,0,0,0). *)
Lemma create_pixel_image_unresolved (width height : Z)
    (pixels : list (list string)) (palette : option Palette) (img : Image)
    (x y : Z) :
  create_pixel_image width height pixels palette = Ok img ->
  0 <= x < width -> 0 <= y < height ->
  unresolved (color_map_of palette) pixels x y ->
  getpixel img x y = Some (0, 0, 0, 0).
Proof.
  intros Hrun Hx Hy Hun.
  rewrite create_pixel_image_scan, Image_new_blank, bind_Ok in Hrun by lia.
  refine (for_each_invariant
            (fun img => getpixel img x y = Some (0, 0, 0, 0)) _ _ _ _ _ _ Hrun).
  - intros t [x' y'] t' [Hx' Hy']%elem_of_scan_order Ht Hstep. simpl in Hstep.
    destruct (decide ((x', y') = (x, y))) as [Heq|Hne].
    + inversion Heq; subst. rewrite paint_skip in Hstep by (done || lia).
      by inversion Hstep; subst.
    + rewrite paint_cell in Hstep by lia.
      destruct (cell pixels x' y') as [tok|]; [|by inversion Hstep; subst].
      destruct (color_map_of palette !! tok) as [v|];
        [|by inversion Hstep; subst].
      rewrite <-Ht. by apply (setpixel_getpixel_ne t t' x' y' x y v); [lia..| |].
  - apply blank_fully_transparent; simpl; lia.
Qed.

(** ** Every pixel of the image returned *)

Lemma blank_well_formed (width height : Z) :
  0 <= width -> 0 <= height -> well_formed width height (blank width height).
Proof.
  intros Hw Hh. split; [done|]. by apply blank_size.
Qed.

Lemma setpixel_Ok_inv (img img' : Image) (x y : Z) (v : color_value) :
  setpixel img x y v = Ok img' ->
  exists (i j : nat) (c : rgba),
    v = Rgba c /\
    img' = mkImage (im_width img) (im_height img)
             (alter (fun row => <[i := c]> row) j (im_rows img)).
Proof.
  unfold setpixel. intros Hset.
  repeat case_match; try done; inversion Hset; subst; eauto.
Qed.

Lemma setpixel_well_formed (width height x y : Z) (img img' : Image)
    (v : color_value) :
  well_formed width height img -> setpixel img x y v = Ok img' ->
  well_formed width height img'.
Proof.
  intros (Hsize & Hlen & Hrows) (i & j & c & -> & ->)%setpixel_Ok_inv.
  split; [done|]. simpl. split; [by rewrite length_alter|].
  apply Forall_alter; [done|]. intros row Hrow. by rewrite length_insert.
Qed.

Lemma setpixel_getpixel_eq (width height x y : Z) (img img' : Image) (c : rgba) :
  well_formed width height img -> 0 <= x < width -> 0 <= y < height ->
  setpixel img x y (Rgba c) = Ok img' -> getpixel img' x y = Some c.
Proof.
  intros (Hsize & Hlen & Hrows) Hx Hy. unfold setpixel.
  replace (x <? 0) with false by lia. replace (y <? 0) with false by lia.
  intros Hset. case_match; [done|]. inversion Hset; subst; clear Hset.
  unfold getpixel. simpl. replace ((x <? 0) || (y <? 0)) with false by lia.
  rewrite list_lookup_alter_eq.
  destruct (lookup_lt_is_Some_2 (im_rows img) (Z.to_nat y)) as [row Hrow]; [lia|].
  rewrite Hrow. simpl. apply list_lookup_insert_eq.
  rewrite Forall_forall in Hrows. rewrite (Hrows row); [lia|].
  by apply list_elem_of_lookup_2 in Hrow.
Qed.

Lemma paint_painted (color_map : gmap string color_value)
    (pixels : list (list string)) (width height x y : Z)
    (visited : list (Z * Z)) (img img' : Image) :
  0 <= x < width -> 0 <= y < height ->
  painted color_map pixels width height visited img ->
  paint color_map pixels y img x = Ok img' ->
  painted color_map pixels width height ((x, y) :: visited) img'.
Proof.
  intros Hx Hy [Hwf Hpix] Hstep. rewrite paint_cell in Hstep by lia.
  assert (Hother : forall x0 y0, (x, y) <> (x0, y0) ->
            (if decide ((x0, y0) ∈ (x, y) :: visited)
             then resolved color_map pixels x0 y0 else (0, 0, 0, 0)) =
            (if decide ((x0, y0) ∈ visited)
             then resolved color_map pixels x0 y0 else (0, 0, 0, 0))).
  { intros x0 y0 Hne. repeat case_decide; try done.
    - by apply elem_of_cons in H as [?|?].
    - exfalso. apply H. by right. }
  assert (Hskip : resolved color_map pixels x y = (0, 0, 0, 0) ->
            painted color_map pixels width height ((x, y) :: visited) img).
  { intros Hres. split; [done|]. intros x0 y0 Hx0 Hy0. rewrite Hpix by done.
    f_equal. destruct (decide ((x, y) = (x0, y0))) as [Heq|Hne].
    - inversion Heq; subst.
      destruct (decide ((x0, y0) ∈ (x0, y0) :: visited)) as [_|Hn];
        [|exfalso; apply Hn; left].
      case_decide; [done|by rewrite Hres].
    - by rewrite Hother. }
  unfold resolved in Hskip.
  destruct (cell pixels x y) as [tok|] eqn:Hcell.
  2:{ inversion Hstep; subst. by apply Hskip. }
  destruct (color_map !! tok) as [[s|c]|] eqn:Hlook.
  - unfold setpixel in Hstep. by repeat case_match.
  - split; [by eapply setpixel_well_formed|].
    intros x0 y0 Hx0 Hy0. destruct (decide ((x, y) = (x0, y0))) as [Heq|Hne].
    + inversion Heq; subst. rewrite decide_True by left.
      rewrite (setpixel_getpixel_eq width height x0 y0 img img' c) by done.
      unfold resolved. by rewrite Hcell, Hlook.
    + rewrite (setpixel_getpixel_ne img img' x y x0 y0 (Rgba c)) by (done || lia).
      rewrite Hpix by done. by rewrite Hother.
  - inversion Hstep; subst. by apply Hskip.
Qed.

Lemma for_each_painted (color_map : gmap string color_value)
    (pixels : list (list string)) (width height : Z) (todo visited : list (Z * Z))
    (img img' : Image) :
  (forall p, p ∈ todo -> 0 <= p.1 < width /\ 0 <= p.2 < height) ->
  painted color_map pixels width height visited img ->
  for_each (fun img p => paint color_map pixels p.2 img p.1) todo img = Ok img' ->
  painted color_map pixels width height (reverse todo ++ visited) img'.
Proof.
  revert visited img. induction todo as [|[x y] todo IH]; intros visited img Hin Hp Hrun.
  - by inversion Hrun; subst.
  - simpl in Hrun.
    destruct (paint color_map pixels y img x) as [t|e] eqn:Hstep; [|done].
    simpl in Hrun. rewrite reverse_cons, <-app_assoc. simpl.
    apply (IH _ t); [|by eapply paint_painted; [apply (Hin (x, y)); left..| |]|done].
    intros p Hp'. apply Hin. by right.
Qed.

(** The image returned holds, at every pixel, the resolved colour. *)
Lemma create_pixel_image_pixels (width height : Z) (pixels : list (list string))
    (palette : option Palette) (img : Image) :
  create_pixel_image width height pixels palette = Ok img ->
  well_formed width height img /\
  forall x y, 0 <= x < width -> 0 <= y < height ->
    getpixel img x y = Some (resolved (color_map_of palette) pixels x y).
Proof.
  intros Hrun.
  assert (Hsize : 0 <= width /\ 0 <= height).
  { unfold create_pixel_image, Image_new in Hrun.
    destruct ((width <? 0) || (height <? 0)) eqn:Hneg; [done|]. lia. }
  destruct Hsize as [Hw Hh].
  rewrite create_pixel_image_scan, Image_new_blank, bind_Ok in Hrun by done.
  apply (for_each_painted _ _ width height _ []) in Hrun as [Hwf Hpix].
  - split; [done|]. intros x y Hx Hy. rewrite Hpix by done.
    rewrite app_nil_r, decide_True; [done|].
    apply elem_of_reverse. by apply elem_of_scan_order.
  - by intros [x y] Hin%elem_of_scan_order.
  - split; [by apply blank_well_formed|]. intros x y Hx Hy.
    rewrite decide_False by apply not_elem_of_nil.
    by apply blank_fully_transparent.
Qed.

(** ** The functions on small inputs *)

Example generate_building_sprite_2x6 :
  generate_building_sprite "cave" (2, 6) =
    [ ["terrain"; "terrain"]; ["terrain"; "terrain"]; ["terrain"; "terrain"];
      ["terrain"; "terrain"]; ["#2F2F2F"; "#2F2F2F"]; ["#2F2F2F"; "#2F2F2F"] ].
Proof. reflexivity. Qed.

Example generate_building_sprite_1x10 :
  generate_building_sprite "hut" (1, 10) =
    [ ["terrain"]; ["terrain"]; ["terrain"]; ["terrain"]; ["stone"]; ["stone"];
      ["#2F2F2F"]; ["#2F2F2F"]; ["#2F2F2F"]; ["#2F2F2F"] ].
Proof. reflexivity. Qed.

Example generate_ui_icon_5x5 :
  generate_ui_icon "gold" (5, 5) =
    [ ["border"; "border"; "border"; "border"; "border"];
      ["border"; "border"; "border"; "border"; "border"];
      ["border"; "border"; "background"; "border"; "border"];
      ["border"; "border"; "border"; "border"; "border"];
      ["border"; "border"; "border"; "border"; "border"] ].
Proof. reflexivity. Qed.

Example generate_npc_base_sprite_negative_size :
  generate_npc_base_sprite (3, -1) = [] /\
  generate_npc_base_sprite (-3, 2) = [[]; []].
Proof. split; reflexivity. Qed.

Example create_pixel_image_building_3x3 :
  create_pixel_image 3 3 (generate_building_sprite "cave" (2, 6)) None =
    Ok (mkImage 3 3 [ [(139, 69, 19, 255); (139, 69, 19, 255); (0, 0, 0, 0)];
                      [(139, 69, 19, 255); (139, 69, 19, 255); (0, 0, 0, 0)];
                      [(139, 69, 19, 255); (139, 69, 19, 255); (0, 0, 0, 0)] ]).
Proof. by vm_compute. Qed.

Example create_pixel_image_negative_size :
  create_pixel_image (-1) 2 [] None = Raise ValueError.
Proof. reflexivity. Qed.

Example color_map_of_medieval :
  color_map_of (palette_of "medieval") !! "#2F2F2F" = Some (Rgba (47, 47, 47, 255)) /\
  color_map_of (palette_of "medieval") !! "#4A4A4A" = Some (Hex "#4A4A4A") /\
  color_map_of (palette_of "medieval") !! "hair" = None /\
  color_map_of (Some []) !! "#228B22" = Some (Rgba (34, 139, 34, 255)).
Proof. repeat split; by vm_compute. Qed.

Example saved_images_count (output_dir : string) :
  length (saved_images (sprite_events output_dir)) = 221%nat.
Proof. by vm_compute. Qed.

(** ** The rasterizer's scan and its tolerance of small grids *)

(** The rasterizer visits the pixels row by row from the top and each row
    from the left.  Whatever the size of the grid, reading it never fails: a
    pixel outside the grid, or whose token is not a key of the resolution
    table, is skipped and is (0,0,0,0) in the image returned, and
    [IndexError] is never raised.  The call returns an image (of the
    declared size) exactly when no token inside the image resolves to a
    colour string, so always when no palette is given. *)
Lemma rasterizer_scan_and_tolerance (width height : Z)
    (pixels : list (list string)) (palette : option Palette) :
  0 <= width -> 0 <= height ->
  create_pixel_image width height pixels palette =
    (img ← Image_new width height (0, 0, 0, 0);
     for_each (fun img p => paint (color_map_of palette) pixels p.2 img p.1)
              (scan_order width height) img) /\
  length (scan_order width height) = Z.to_nat (width * height) /\
  (forall k, 0 <= k < width * height ->
     scan_order width height !! Z.to_nat k = Some (k mod width, k / width)) /\
  (forall img x y, 0 <= x -> 0 <= y ->
     unresolved (color_map_of palette) pixels x y ->
     paint (color_map_of palette) pixels y img x = Ok img) /\
  create_pixel_image width height pixels palette <> Raise IndexError /\
  ((exists img, create_pixel_image width height pixels palette = Ok img) <->
   ~ hex_hit (color_map_of palette) pixels width height) /\
  (palette = None ->
   exists img, create_pixel_image width height pixels palette = Ok img) /\
  (forall img, create_pixel_image width height pixels palette = Ok img ->
     im_width img = width /\ im_height img = height /\
     (forall x y, 0 <= x < width -> 0 <= y < height ->
        unresolved (color_map_of palette) pixels x y ->
        getpixel img x y = Some (0, 0, 0, 0)) /\
     (forall x y, 0 <= x < width -> 0 <= y < height ->
        getpixel img x y = Some (resolved (color_map_of palette) pixels x y))).
Proof.
  intros Hw Hh.
  split; [apply create_pixel_image_scan|].
  split; [by apply scan_order_length|].
  split; [by intros k Hk; apply scan_order_lookup|].
  split; [by intros img x y Hx Hy Hun; apply paint_skip|].
  split.
  { destruct (create_pixel_image_outcome width height pixels palette Hw Hh)
      as [(img & -> & _)| ->]; done. }
  split; [by apply create_pixel_image_Ok_iff|].
  split.
  { intros ->. apply create_pixel_image_Ok_iff; [done..|].
    intros (x & y & tok & s & _ & _ & _ & Hlook).
    by apply color_map_of_None_rgba in Hlook as [c Hc]. }
  intros img Hrun.
  destruct (create_pixel_image_outcome width height pixels palette Hw Hh)
    as [(img' & Hrun' & Hsw & Hsh)|Hraise]; [|by rewrite Hraise in Hrun].
  rewrite Hrun in Hrun'. inversion Hrun'; subst img'.
  split; [done|]. split; [done|]. split.
  - intros x y Hx Hy Hun.
    by apply (create_pixel_image_unresolved width height pixels palette).
  - by apply create_pixel_image_pixels.
Qed.

Lemma rasterizer_scan_and_tolerance_example :
  (0 <= 3 /\ 0 <= 2) /\
  exists img, create_pixel_image 3 2 [["stone"]] None = Ok img /\
    getpixel img 0 0 = Some (128, 128, 128, 255) /\
    getpixel img 1 0 = Some (0, 0, 0, 0) /\
    getpixel img 2 1 = Some (0, 0, 0, 0).
Proof.
  assert (Hw : 0 <= 3) by lia.
  assert (Hh : 0 <= 2) by lia.
  split; [exact (conj Hw Hh)|].
  destruct (rasterizer_scan_and_tolerance 3 2 [["stone"]] None Hw Hh)
    as (_ & _ & _ & _ & _ & _ & Htotal & Hpix).
  destruct (Htotal eq_refl) as [img Himg].
  exists img. split; [exact Himg|].
  destruct (Hpix img Himg) as (_ & _ & Hun & _).
  split; [|split].
  - vm_compute in Himg. inversion Himg. reflexivity.
  - apply Hun; [lia|lia|exact I].
  - apply Hun; [lia|lia|exact I].
Defined.

(** * Properties C1 to C10 *)

(** C1.  For every era, animation and direction the driver saves one
    character image; it is the image [create_pixel_image] returns for the
    character grid and the era's palette, it is 16 wide and 24 high, and
    every pixel of it is (0,0,0,0): the grid holds only the tokens [skin]
    and [clothing], and neither is a key of the table built from the
    palette. *)
Theorem character_images_fully_transparent (output_dir : string) (tr : trace)
    (era animation direction : string) :
  era ∈ PALETTES.*1 -> animation ∈ ANIMATIONS -> direction ∈ DIRECTIONS ->
  exists palette img evs,
    dict_getitem PALETTES era = Ok palette /\
    create_pixel_image 16 24 (generate_npc_base_sprite npc_default_size)
      (Some palette) = Ok img /\
    generate_all_sprites output_dir tr = Ok (tr ++ evs) /\
    SavePng (npc_file output_dir era animation direction) img ∈ evs /\
    (forall img', SavePng (npc_file output_dir era animation direction) img' ∈ evs ->
       img' = img) /\
    im_width img = 16 /\ im_height img = 24 /\
    length (im_rows img) = 24%nat /\
    Forall (fun row => length row = 16%nat) (im_rows img) /\
    fully_transparent img /\
    color_map_of (Some palette) !! "skin" = None /\
    color_map_of (Some palette) !! "clothing" = None /\
    (forall x y tok,
       cell (generate_npc_base_sprite npc_default_size) x y = Some tok ->
       tok = "skin" \/ tok = "clothing").
Proof.
  intros Hera Hanim Hdir.
  destruct (PALETTES_getitem era Hera) as (palette & Hget & Hin).
  exists palette, (blank 16 24), (sprite_events output_dir).
  split; [done|]. split; [by apply (npc_image_blank era)|].
  split; [apply generate_all_sprites_trace|].
  split.
  { apply SavePng_sprite_events. left. apply SavePng_npc_events.
    by exists era, animation, direction. }
  split.
  { intros img' Hsaved. apply SavePng_sprite_events in Hsaved.
    destruct Hsaved as [Hs|[Hs|[Hs|Hs]]].
    - by apply SavePng_npc_events in Hs as (? & ? & ? & _ & _ & _ & _ & ->).
    - apply SavePng_building_events in Hs as (name & _ & Hp & _).
      by destruct (npc_file_not_other output_dir era animation direction name)
        as (? & ? & ?).
    - apply SavePng_terrain_events in Hs as (name & _ & Hp & _).
      by destruct (npc_file_not_other output_dir era animation direction name)
        as (? & ? & ?).
    - apply SavePng_icon_events in Hs as (name & _ & Hp & _).
      by destruct (npc_file_not_other output_dir era animation direction name)
        as (? & ? & ?). }
  split; [done|]. split; [done|].
  split; [by apply (blank_size 16 24)|]. split; [by apply (blank_size 16 24)|].
  split; [apply blank_fully_transparent|].
  split; [apply (PALETTES_category_tokens era); [done|by left]|].
  split; [apply (PALETTES_category_tokens era); [done|by right; left]|].
  intros x y tok. rewrite generate_npc_base_sprite_grid.
  intros [-> _]%cell_grid_of_Some.
  pose proof (npc_token_cases x y) as Hc.
  apply elem_of_cons in Hc as [->|Hc]; [by left|].
  apply list_elem_of_singleton in Hc as ->. by right.
Qed.

Lemma character_images_fully_transparent_witness :
  "stone_age" ∈ PALETTES.*1 /\ "idle" ∈ ANIMATIONS /\ "up" ∈ DIRECTIONS /\
  exists palette img evs,
    dict_getitem PALETTES "stone_age" = Ok palette /\
    create_pixel_image 16 24 (generate_npc_base_sprite npc_default_size)
      (Some palette) = Ok img /\
    generate_all_sprites "out" [] = Ok ([] ++ evs) /\
    SavePng (npc_file "out" "stone_age" "idle" "up") img ∈ evs /\
    (forall img', SavePng (npc_file "out" "stone_age" "idle" "up") img' ∈ evs ->
       img' = img) /\
    im_width img = 16 /\ im_height img = 24 /\
    length (im_rows img) = 24%nat /\
    Forall (fun row => length row = 16%nat) (im_rows img) /\
    fully_transparent img /\
    color_map_of (Some palette) !! "skin" = None /\
    color_map_of (Some palette) !! "clothing" = None /\
    (forall x y tok,
       cell (generate_npc_base_sprite npc_default_size) x y = Some tok ->
       tok = "skin" \/ tok = "clothing").
Proof.
  assert (He : "stone_age" ∈ PALETTES.*1) by (simpl; left).
  assert (Ha : "idle" ∈ ANIMATIONS) by left.
  assert (Hd : "up" ∈ DIRECTIONS) by left.
  split; [exact He|]. split; [exact Ha|]. split; [exact Hd|].
  exact (character_images_fully_transparent "out" [] "stone_age" "idle" "up" He Ha Hd).
Defined.

(** C2, as stated: below the threshold the last matching band would give
    each row its token.  It does not: in a building grid of height 6 the
    roof and foundation bands both cover row 2, and the row is [terrain]
    (the roof, the earlier band), not [#2F2F2F]. *)
Lemma last_band_wins_counterexample :
  ~ (forall (building_type : string) (W H x y : Z),
       H < 8 -> 0 <= x < W -> 0 <= y < H ->
       cell (generate_building_sprite building_type (W, H)) x y
       = last_matching (spec_building_bands H) y).
Proof.
  intros Hclaim.
  specialize (Hclaim "cave" 1 6 0 2 ltac:(lia) ltac:(lia) ltac:(lia)).
  vm_compute in Hclaim. discriminate Hclaim.
Qed.

(** C2, amended.  For every size, also below the thresholds, the first
    matching band gives each row its token: an earlier band is never
    overwritten by a later one.  In a building grid of height under 8 the
    rows [y < 4] are [terrain], all other rows are [#2F2F2F], and no row is
    [stone]; the character bands do not depend on the height and never
    overlap. *)
Theorem first_band_wins (building_type : string) (W H x y : Z) :
  0 <= x < W -> 0 <= y < H ->
  cell (generate_building_sprite building_type (W, H)) x y
    = first_matching (spec_building_bands H) y /\
  (H < 8 ->
     cell (generate_building_sprite building_type (W, H)) x y
       = Some (if y <? 4 then "terrain" else "#2F2F2F")) /\
  cell (generate_npc_base_sprite (W, H)) x y = first_matching spec_npc_bands y /\
  cell (generate_npc_base_sprite (W, H)) x y = last_matching spec_npc_bands y.
Proof.
  intros Hx Hy.
  rewrite generate_building_sprite_grid, generate_npc_base_sprite_grid.
  rewrite !cell_grid_of by done.
  unfold first_matching, last_matching, matching_bands, spec_building_bands,
    spec_npc_bands, building_token, npc_token.
  cbn [fst snd List.filter].
  split; [|split; [|split]].
  - destruct (y <? 4) eqn:H4, (4 <=? y) eqn:H4', (y <? H - 4) eqn:Hw,
      (H - 4 <=? y) eqn:Hf; simpl; try done; lia.
  - intros HH. destruct (y <? 4) eqn:H4; [done|].
    by replace (y <? H - 4) with false by lia.
  - destruct (y <? 4) eqn:H4, (4 <=? y) eqn:H4', (y <? 8) eqn:H8,
      (8 <=? y) eqn:H8', (y <? 16) eqn:H16, (16 <=? y) eqn:H16';
      simpl; try done; lia.
  - destruct (y <? 4) eqn:H4, (4 <=? y) eqn:H4', (y <? 8) eqn:H8,
      (8 <=? y) eqn:H8', (y <? 16) eqn:H16, (16 <=? y) eqn:H16';
      simpl; try done; lia.
Qed.

Lemma first_band_wins_witness :
  (0 <= 0 < 1 /\ 0 <= 2 < 6) /\
  cell (generate_building_sprite "cave" (1, 6)) 0 2
    = first_matching (spec_building_bands 6) 2 /\
  (6 < 8 ->
     cell (generate_building_sprite "cave" (1, 6)) 0 2
       = Some (if 2 <? 4 then "terrain" else "#2F2F2F")) /\
  cell (generate_npc_base_sprite (1, 6)) 0 2 = first_matching spec_npc_bands 2 /\
  cell (generate_npc_base_sprite (1, 6)) 0 2 = last_matching spec_npc_bands 2.
Proof.
  assert (Hx : 0 <= 0 < 1) by lia.
  assert (Hy : 0 <= 2 < 6) by lia.
  split; [exact (conj Hx Hy)|].
  exact (first_band_wins "cave" 1 6 0 2 Hx Hy).
Defined.

(** C3.  For every icon name and every coordinate of a [W] by [H] grid the
    icon classifier gives [border] exactly when [x < 2], [x >= W - 2],
    [y < 2] or [y >= H - 2], and [background] otherwise; for [W = H = 16]
    and a row away from the top and bottom margins, columns 1 and 14 are
    border and columns 2 and 13 are background. *)
Theorem icon_border_iff (icon_type : string) (W H x y : Z) :
  0 <= x < W -> 0 <= y < H ->
  (cell (generate_ui_icon icon_type (W, H)) x y = Some "border" <->
     x < 2 \/ x >= W - 2 \/ y < 2 \/ y >= H - 2) /\
  (cell (generate_ui_icon icon_type (W, H)) x y = Some "background" <->
     ~ (x < 2 \/ x >= W - 2 \/ y < 2 \/ y >= H - 2)) /\
  (forall y', 2 <= y' < 14 ->
     cell (generate_ui_icon icon_type (16, 16)) 1 y' = Some "border" /\
     cell (generate_ui_icon icon_type (16, 16)) 2 y' = Some "background" /\
     cell (generate_ui_icon icon_type (16, 16)) 13 y' = Some "background" /\
     cell (generate_ui_icon icon_type (16, 16)) 14 y' = Some "border").
Proof.
  intros Hx Hy. rewrite generate_ui_icon_grid, cell_grid_of by done.
  unfold icon_token. cbn [fst snd].
  split; [|split].
  - destruct ((y <? 2) || (H - 2 <=? y) || (x <? 2) || (W - 2 <=? x)) eqn:Hb.
    + split; [intros _; lia|done].
    + split; [done|intros; lia].
  - destruct ((y <? 2) || (H - 2 <=? y) || (x <? 2) || (W - 2 <=? x)) eqn:Hb.
    + split; [done|intros Hn; exfalso; apply Hn; lia].
    + split; [intros _; lia|done].
  - intros y' Hy'. rewrite generate_ui_icon_grid, !cell_grid_of by lia.
    unfold icon_token. cbn [fst snd]. replace (y' <? 2) with false by lia.
    replace (16 - 2 <=? y') with false by lia. done.
Qed.

Lemma icon_border_iff_witness :
  (0 <= 2 < 16 /\ 0 <= 8 < 16) /\
  (cell (generate_ui_icon "gold" (16, 16)) 2 8 = Some "border" <->
     2 < 2 \/ 2 >= 16 - 2 \/ 8 < 2 \/ 8 >= 16 - 2) /\
  (cell (generate_ui_icon "gold" (16, 16)) 2 8 = Some "background" <->
     ~ (2 < 2 \/ 2 >= 16 - 2 \/ 8 < 2 \/ 8 >= 16 - 2)) /\
  (forall y', 2 <= y' < 14 ->
     cell (generate_ui_icon "gold" (16, 16)) 1 y' = Some "border" /\
     cell (generate_ui_icon "gold" (16, 16)) 2 y' = Some "background" /\
     cell (generate_ui_icon "gold" (16, 16)) 13 y' = Some "background" /\
     cell (generate_ui_icon "gold" (16, 16)) 14 y' = Some "border").
Proof.
  assert (Hx : 0 <= 2 < 16) by lia.
  assert (Hy : 0 <= 8 < 16) by lia.
  split; [exact (conj Hx Hy)|].
  exact (icon_border_iff "gold" 16 16 2 8 Hx Hy).
Defined.

(** C4.  The building classifier does not look at the building-type name:
    for any two names and the same size the grids are equal, hence so are
    the rasterized images and the bytes any encoder makes of them; and the
    driver saves the same image for any two of its building names. *)
Theorem building_images_name_independent (name1 name2 : string) (size : Z * Z) :
  generate_building_sprite name1 size = generate_building_sprite name2 size /\
  (forall width height palette,
     create_pixel_image width height (generate_building_sprite name1 size) palette =
     create_pixel_image width height (generate_building_sprite name2 size) palette) /\
  (forall (encode : Image -> list Z) width height palette img1 img2,
     create_pixel_image width height (generate_building_sprite name1 size) palette
       = Ok img1 ->
     create_pixel_image width height (generate_building_sprite name2 size) palette
       = Ok img2 ->
     encode img1 = encode img2) /\
  (forall output_dir tr, name1 ∈ buildings -> name2 ∈ buildings ->
     exists img evs,
       generate_all_sprites output_dir tr = Ok (tr ++ evs) /\
       SavePng (building_file output_dir name1) img ∈ evs /\
       SavePng (building_file output_dir name2) img ∈ evs /\
       create_pixel_image 32 32
         (generate_building_sprite name1 building_default_size) None = Ok img /\
       create_pixel_image 32 32
         (generate_building_sprite name2 building_default_size) None = Ok img).
Proof.
  assert (Hgrid : generate_building_sprite name1 size
                  = generate_building_sprite name2 size)
    by (by rewrite !generate_building_sprite_grid).
  split; [done|]. split; [by intros; rewrite Hgrid|].
  split.
  { intros encode width height palette img1 img2 H1 H2.
    rewrite Hgrid in H1. rewrite H1 in H2. by inversion H2. }
  intros output_dir tr Hn1 Hn2.
  exists building_image, (sprite_events output_dir).
  split; [apply generate_all_sprites_trace|].
  split.
  { apply SavePng_sprite_events. right. left.
    apply SavePng_building_events. by exists name1. }
  split.
  { apply SavePng_sprite_events. right. left.
    apply SavePng_building_events. by exists name2. }
  split; apply building_image_default.
Qed.

Lemma building_images_name_independent_witness :
  ("cave" ∈ buildings /\ "castle" ∈ buildings) /\
  exists img evs,
    generate_all_sprites "out" [] = Ok ([] ++ evs) /\
    SavePng (building_file "out" "cave") img ∈ evs /\
    SavePng (building_file "out" "castle") img ∈ evs /\
    create_pixel_image 32 32
      (generate_building_sprite "cave" building_default_size) None = Ok img /\
    create_pixel_image 32 32
      (generate_building_sprite "castle" building_default_size) None = Ok img.
Proof.
  assert (H1 : "cave" ∈ buildings) by left.
  assert (H2 : "castle" ∈ buildings) by (do 5 right; left).
  split; [exact (conj H1 H2)|].
  exact (proj2 (proj2 (proj2
    (building_images_name_independent "cave" "castle" building_default_size)))
    "out" [] H1 H2).
Defined.

(** C5.  The terrain classifier puts the placeholder [terrain_base] in
    every cell of the grid, for every size.  The placeholder is a key
    neither of the default table nor of the table of any era palette, so
    every pixel stays transparent; the driver rasterizes terrain without a
    palette, and the tiles it saves for any two terrain names are the same
    image. *)
Theorem terrain_tiles_placeholder (size : Z * Z) (output_dir : string) (tr : trace) :
  (forall x y, 0 <= x < size.1 -> 0 <= y < size.2 ->
     cell (generate_terrain_tile size) x y = Some "terrain_base") /\
  (forall x y tok, cell (generate_terrain_tile size) x y = Some tok ->
     tok = "terrain_base") /\
  color_map_of None !! "terrain_base" = None /\
  (forall era palette, (era, palette) ∈ PALETTES ->
     color_map_of (Some palette) !! "terrain_base" = None) /\
  (forall width height, 0 <= width -> 0 <= height ->
     exists img,
       create_pixel_image width height (generate_terrain_tile size) None = Ok img /\
       im_width img = width /\ im_height img = height /\ fully_transparent img) /\
  (forall t1 t2, t1 ∈ terrains -> t2 ∈ terrains ->
     exists img evs,
       generate_all_sprites output_dir tr = Ok (tr ++ evs) /\
       SavePng (terrain_file output_dir t1) img ∈ evs /\
       SavePng (terrain_file output_dir t2) img ∈ evs /\
       create_pixel_image 16 16 (generate_terrain_tile terrain_default_size) None
         = Ok img /\
       fully_transparent img).
Proof.
  split.
  { intros x y Hx Hy. rewrite generate_terrain_tile_grid.
    destruct size as [width height]. by rewrite cell_grid_of. }
  split.
  { intros x y tok. rewrite generate_terrain_tile_grid.
    by intros [-> _]%cell_grid_of_Some. }
  split; [done|].
  split.
  { intros era palette Hin.
    assert (Hall : Forall (fun ep : string * Palette =>
              color_map_of (Some ep.2) !! "terrain_base" = None) PALETTES).
    { unfold PALETTES. repeat constructor. }
    rewrite Forall_forall in Hall. apply (Hall _ Hin). }
  split.
  { intros width height Hw Hh. exists (blank width height).
    split; [by apply terrain_image_blank|].
    split; [done|]. split; [done|]. apply blank_fully_transparent. }
  intros t1 t2 Ht1 Ht2. exists (blank 16 16), (sprite_events output_dir).
  split; [apply generate_all_sprites_trace|].
  split.
  { apply SavePng_sprite_events. do 2 right. left.
    apply SavePng_terrain_events. by exists t1. }
  split.
  { apply SavePng_sprite_events. do 2 right. left.
    apply SavePng_terrain_events. by exists t2. }
  split; [by apply terrain_image_blank|]. apply blank_fully_transparent.
Qed.

Lemma terrain_tiles_placeholder_witness :
  (0 <= 3 < 16 /\ 0 <= 5 < 16) /\
  cell (generate_terrain_tile (16, 16)) 3 5 = Some "terrain_base".
Proof.
  assert (Hx : 0 <= 3 < (16, 16).1) by (simpl; lia).
  assert (Hy : 0 <= 5 < (16, 16).2) by (simpl; lia).
  split; [exact (conj Hx Hy)|].
  exact (proj1 (terrain_tiles_placeholder (16, 16) "out" []) 3 5 Hx Hy).
Defined.

(** C6.  In a building grid of width [W] and height [H >= 8] (the default
    is 32 by 32), every column of row [y] holds [terrain] when [y < 4],
    [stone] when [4 <= y < H - 4] and the hex token [#2F2F2F] when
    [y >= H - 4]. *)
Theorem building_row_bands (building_type : string) (W H x y : Z) :
  8 <= H -> 0 <= x < W -> 0 <= y < H ->
  (y < 4 -> cell (generate_building_sprite building_type (W, H)) x y
            = Some "terrain") /\
  (4 <= y < H - 4 -> cell (generate_building_sprite building_type (W, H)) x y
                     = Some "stone") /\
  (H - 4 <= y -> cell (generate_building_sprite building_type (W, H)) x y
                 = Some "#2F2F2F").
Proof.
  intros HH Hx Hy. rewrite generate_building_sprite_grid, cell_grid_of by done.
  unfold building_token. cbn [fst snd].
  split; [|split]; intros Hband.
  - by replace (y <? 4) with true by lia.
  - replace (y <? 4) with false by lia. by replace (y <? H - 4) with true by lia.
  - replace (y <? 4) with false by lia. by replace (y <? H - 4) with false by lia.
Qed.

Lemma building_row_bands_witness :
  (8 <= 32 /\ 0 <= 7 < 32 /\ 0 <= 2 < 32) /\
  (2 < 4 -> cell (generate_building_sprite "castle" building_default_size) 7 2
            = Some "terrain") /\
  (4 <= 2 < 32 - 4 ->
     cell (generate_building_sprite "castle" building_default_size) 7 2
     = Some "stone") /\
  (32 - 4 <= 2 -> cell (generate_building_sprite "castle" building_default_size) 7 2
                  = Some "#2F2F2F").
Proof.
  assert (HH : 8 <= 32) by lia.
  assert (Hx : 0 <= 7 < 32) by lia.
  assert (Hy : 0 <= 2 < 32) by lia.
  split; [exact (conj HH (conj Hx Hy))|].
  exact (building_row_bands "castle" 32 32 7 2 HH Hx Hy).
Defined.

(** C7, on the code.  The one-cell grid holding the token [#8B4513] is
    smaller than a 2 by 2 image.  Without a palette the token resolves to
    an RGBA tuple and the rasterizer returns the image, the three pixels
    outside the grid left at (0,0,0,0).  With the stone-age palette, which
    lists [#8B4513] among its colours, the table maps the token to the
    colour string itself and the rasterizer raises [TypeError] at pixel
    (0,0) instead of returning an image. *)
Theorem rasterizer_raises_on_palette_colour :
  grid_smaller [["#8B4513"]] 2 2 /\
  color_map_of None !! "#8B4513" = Some (Rgba (139, 69, 19, 255)) /\
  create_pixel_image 2 2 [["#8B4513"]] None =
    Ok (mkImage 2 2 [[(139, 69, 19, 255); (0, 0, 0, 0)];
                     [(0, 0, 0, 0); (0, 0, 0, 0)]]) /\
  color_map_of (palette_of "stone_age") !! "#8B4513" = Some (Hex "#8B4513") /\
  create_pixel_image 2 2 [["#8B4513"]] (palette_of "stone_age") = Raise TypeError.
Proof.
  split; [split; [by vm_compute|repeat constructor]|].
  repeat split; by vm_compute.
Qed.

(** C8.  [create_sprite_atlas_config] dumps exactly one JSON value, the
    object with [atlas_name] "ChronoCiv_Sprites", an empty [sprites] array
    and the three [packing] fields, whatever the trace so far holds; a whole
    run of [main] saves 221 images and still dumps that same object, once,
    last. *)
Theorem atlas_config_fixed (output_dir : string) (output : option string)
    (tr : trace) :
  create_sprite_atlas_config output_dir tr =
    Ok (tr ++ [DumpJson (Path_of output_dir // "sprite_atlas_config.json")
                 atlas_config 2]) /\
  atlas_config =
    JObj [ ("atlas_name", JStr "ChronoCiv_Sprites");
           ("sprites", JArr []);
           ("packing", JObj [ ("power_of_two", JBool true);
                              ("padding", JInt 2);
                              ("extrude", JInt 1) ]) ] /\
  exists evs,
    main output tr =
      Ok (tr ++ evs ++
          [DumpJson (Path_of (default default_output output)
                       // "sprite_atlas_config.json") atlas_config 2]) /\
    length (saved_images evs) = 221%nat /\
    (forall p value indent, DumpJson p value indent ∉ evs).
Proof.
  split; [done|]. split; [done|].
  exists (sprite_events (default default_output output)).
  split; [|split].
  - unfold main. rewrite generate_all_sprites_trace, bind_Ok.
    unfold create_sprite_atlas_config. by rewrite <-!app_assoc.
  - by vm_compute.
  - intros p value indent Hin.
    generalize dependent (default default_output output). intros out Hin.
    unfold sprite_events in Hin. rewrite !elem_of_app in Hin.
    destruct Hin as [Hin|[Hin|[Hin|[Hin|Hin]]]].
    + unfold setup_events in Hin. rewrite !elem_of_cons, elem_of_nil in Hin.
      by destruct Hin as [?|[?|[?|[?|[]]]]].
    + unfold npc_events in Hin.
      apply list_elem_of_bind in Hin as (era & Hin & _).
      apply elem_of_cons in Hin as [?|Hin]; [done|].
      apply list_elem_of_bind in Hin as (animation & Hin & _).
      apply elem_of_cons in Hin as [?|Hin]; [done|].
      apply list_elem_of_bind in Hin as (direction & Hin & _).
      unfold saved in Hin. rewrite !elem_of_cons, elem_of_nil in Hin.
      by destruct Hin as [?|[?|[]]].
    + apply list_elem_of_bind in Hin as (b & Hin & _).
      unfold saved in Hin. rewrite !elem_of_cons, elem_of_nil in Hin.
      by destruct Hin as [?|[?|[]]].
    + apply list_elem_of_bind in Hin as (b & Hin & _).
      unfold saved in Hin. rewrite !elem_of_cons, elem_of_nil in Hin.
      by destruct Hin as [?|[?|[]]].
    + apply list_elem_of_bind in Hin as (b & Hin & _).
      unfold saved in Hin. rewrite !elem_of_cons, elem_of_nil in Hin.
      by destruct Hin as [?|[?|[]]].
Qed.

(** C9, on the code.  The character image is the same for every
    direction and animation, and it is also the same for every era: for any
    two eras, animations and directions the driver saves one and the same
    image, and rasterizing the character grid with the palettes of any two
    eras gives the same result. *)
Theorem character_images_same_for_all_eras (output_dir : string) (tr : trace)
    (era1 era2 animation1 animation2 direction1 direction2 : string) :
  era1 ∈ PALETTES.*1 -> era2 ∈ PALETTES.*1 ->
  animation1 ∈ ANIMATIONS -> animation2 ∈ ANIMATIONS ->
  direction1 ∈ DIRECTIONS -> direction2 ∈ DIRECTIONS ->
  exists palette1 palette2 img evs,
    dict_getitem PALETTES era1 = Ok palette1 /\
    dict_getitem PALETTES era2 = Ok palette2 /\
    create_pixel_image 16 24 (generate_npc_base_sprite npc_default_size)
      (Some palette1) = Ok img /\
    create_pixel_image 16 24 (generate_npc_base_sprite npc_default_size)
      (Some palette2) = Ok img /\
    generate_all_sprites output_dir tr = Ok (tr ++ evs) /\
    SavePng (npc_file output_dir era1 animation1 direction1) img ∈ evs /\
    SavePng (npc_file output_dir era2 animation2 direction2) img ∈ evs.
Proof.
  intros He1 He2 Ha1 Ha2 Hd1 Hd2.
  destruct (PALETTES_getitem era1 He1) as (palette1 & Hget1 & Hin1).
  destruct (PALETTES_getitem era2 He2) as (palette2 & Hget2 & Hin2).
  exists palette1, palette2, (blank 16 24), (sprite_events output_dir).
  split; [done|]. split; [done|].
  split; [by apply (npc_image_blank era1)|].
  split; [by apply (npc_image_blank era2)|].
  split; [apply generate_all_sprites_trace|].
  split; apply SavePng_sprite_events; left; apply SavePng_npc_events.
  - by exists era1, animation1, direction1.
  - by exists era2, animation2, direction2.
Qed.

Lemma character_images_same_for_all_eras_witness :
  ("stone_age" ∈ PALETTES.*1 /\ "future" ∈ PALETTES.*1 /\
   "idle" ∈ ANIMATIONS /\ "attack" ∈ ANIMATIONS /\
   "up" ∈ DIRECTIONS /\ "left" ∈ DIRECTIONS) /\
  exists palette1 palette2 img evs,
    dict_getitem PALETTES "stone_age" = Ok palette1 /\
    dict_getitem PALETTES "future" = Ok palette2 /\
    create_pixel_image 16 24 (generate_npc_base_sprite npc_default_size)
      (Some palette1) = Ok img /\
    create_pixel_image 16 24 (generate_npc_base_sprite npc_default_size)
      (Some palette2) = Ok img /\
    generate_all_sprites "out" [] = Ok ([] ++ evs) /\
    SavePng (npc_file "out" "stone_age" "idle" "up") img ∈ evs /\
    SavePng (npc_file "out" "future" "attack" "left") img ∈ evs.
Proof.
  assert (He1 : "stone_age" ∈ PALETTES.*1) by (simpl; left).
  assert (He2 : "future" ∈ PALETTES.*1) by (simpl; do 7 right; left).
  assert (Ha1 : "idle" ∈ ANIMATIONS) by left.
  assert (Ha2 : "attack" ∈ ANIMATIONS) by (do 4 right; left).
  assert (Hd1 : "up" ∈ DIRECTIONS) by left.
  assert (Hd2 : "left" ∈ DIRECTIONS) by (do 2 right; left).
  split; [exact (conj He1 (conj He2 (conj Ha1 (conj Ha2 (conj Hd1 Hd2)))))|].
  exact (character_images_same_for_all_eras "out" [] "stone_age" "future"
           "idle" "attack" "up" "left" He1 He2 Ha1 Ha2 Hd1 Hd2).
Defined.

(** C10.  Every UI icon image the driver saves is fully transparent: the
    icon classifier emits only [border] and [background], the driver
    rasterizes icons without a palette, and neither token is a key of the
    default table. *)
Theorem icon_images_fully_transparent (output_dir : string) (tr : trace)
    (icon : string) :
  icon ∈ icons ->
  exists img evs,
    create_pixel_image 16 16 (generate_ui_icon icon icon_default_size) None = Ok img /\
    generate_all_sprites output_dir tr = Ok (tr ++ evs) /\
    SavePng (icon_file output_dir icon) img ∈ evs /\
    (forall img', SavePng (icon_file output_dir icon) img' ∈ evs -> img' = img) /\
    im_width img = 16 /\ im_height img = 16 /\
    fully_transparent img /\
    (forall size x y tok,
       cell (generate_ui_icon icon size) x y = Some tok ->
       tok = "border" \/ tok = "background") /\
    color_map_of None !! "border" = None /\
    color_map_of None !! "background" = None.
Proof.
  intros Hicon.
  exists (blank 16 16), (sprite_events output_dir).
  split; [by apply icon_image_blank|].
  split; [apply generate_all_sprites_trace|].
  split.
  { apply SavePng_sprite_events. do 3 right. apply SavePng_icon_events.
    by exists icon. }
  split.
  { intros img' Hsaved. apply SavePng_sprite_events in Hsaved.
    destruct Hsaved as [Hs|[Hs|[Hs|Hs]]].
    - apply SavePng_npc_events in Hs as (e & a & d & _ & _ & _ & Hp & _).
      by destruct (npc_file_not_other output_dir e a d icon) as (? & ? & ?).
    - apply SavePng_building_events in Hs as (name & _ & Hp & _).
      by destruct (kind_files_distinct output_dir name icon) as (? & ? & ?).
    - apply SavePng_terrain_events in Hs as (name & _ & Hp & _).
      by destruct (kind_files_distinct output_dir name icon) as (? & ? & ?).
    - by apply SavePng_icon_events in Hs as (name & _ & _ & ->). }
  split; [done|]. split; [done|].
  split; [apply blank_fully_transparent|].
  split; [|done].
  intros size x y tok. rewrite generate_ui_icon_grid.
  intros [-> _]%cell_grid_of_Some.
  pose proof (icon_token_cases size.1 size.2 x y) as Hc.
  apply elem_of_cons in Hc as [->|Hc]; [by left|].
  apply list_elem_of_singleton in Hc as ->. by right.
Qed.

Lemma icon_images_fully_transparent_witness :
  "food" ∈ icons /\
  exists img evs,
    create_pixel_image 16 16 (generate_ui_icon "food" icon_default_size) None = Ok img /\
    generate_all_sprites "out" [] = Ok ([] ++ evs) /\
    SavePng (icon_file "out" "food") img ∈ evs /\
    (forall img', SavePng (icon_file "out" "food") img' ∈ evs -> img' = img) /\
    im_width img = 16 /\ im_height img = 16 /\
    fully_transparent img /\
    (forall size x y tok,
       cell (generate_ui_icon "food" size) x y = Some tok ->
       tok = "border" \/ tok = "background") /\
    color_map_of None !! "border" = None /\
    color_map_of None !! "background" = None.
Proof.
  assert (Hi : "food" ∈ icons) by left.
  split; [exact Hi|].
  exact (icon_images_fully_transparent "out" [] "food" Hi).
Defined.

(** * Further properties of the code, X1 onwards *)

(** ** Helper lemmas *)

Lemma for_each_ext {A S : Type} (f g : S -> A -> outcome S) (l : list A) (s : S) :
  (forall t a, a ∈ l -> f t a = g t a) -> for_each f l s = for_each g l s.
Proof.
  revert s. induction l as [|a l IH]; intros s Hfg; simpl; [done|].
  rewrite Hfg by left. destruct (g s a) as [t|e]; simpl; [|done].
  apply IH. intros u b Hin. apply Hfg. by right.
Qed.

Lemma getpixel_Some_window (width height x y : Z) (img : Image) (c : rgba) :
  well_formed width height img -> getpixel img x y = Some c ->
  0 <= x < width /\ 0 <= y < height.
Proof.
  intros (_ & Hlen & Hrows). unfold getpixel.
  destruct ((x <? 0) || (y <? 0)) eqn:Hneg; [done|].
  destruct (im_rows img !! Z.to_nat y) as [row|] eqn:Hrow; [|done]. simpl.
  intros Hc. apply lookup_lt_Some in Hrow as Hy. apply lookup_lt_Some in Hc as Hx.
  rewrite Forall_forall in Hrows. rewrite (Hrows row) in Hx
    by (by apply list_elem_of_lookup_2 in Hrow).
  lia.
Qed.





(** ** The rasterizer *)

(** X1.  When [create_pixel_image] returns an image, the image has the
    declared size, its buffer has [height] rows of [width] pixels whatever
    the shape of the grid, and the pixel at [(x, y)] is the RGBA value of the
    grid's token there if the grid covers [(x, y)] and the token is a key of
    the table, and (0,0,0,0) otherwise; outside the declared size there is
    no pixel. *)
Theorem create_pixel_image_pixel_values (width height : Z)
    (pixels : list (list string)) (palette : option Palette) (img : Image) :
  create_pixel_image width height pixels palette = Ok img ->
  im_width img = width /\ im_height img = height /\
  length (im_rows img) = Z.to_nat height /\
  Forall (fun row => length row = Z.to_nat width) (im_rows img) /\
  (forall x y, 0 <= x < width -> 0 <= y < height ->
     getpixel img x y =
       Some match cell pixels x y with
            | Some color_name =>
                match color_map_of palette !! color_name with
                | Some (Rgba c) => c
                | _ => (0, 0, 0, 0)
                end
            | None => (0, 0, 0, 0)
            end) /\
  (forall x y, ~ (0 <= x < width /\ 0 <= y < height) -> getpixel img x y = None).
Proof.
  intros Hrun.
  destruct (create_pixel_image_pixels width height pixels palette img Hrun)
    as [Hwf Hpix].
  pose proof Hwf as ([Hw Hh] & Hlen & Hrows).
  split; [done|]. split; [done|]. split; [done|]. split; [done|]. split.
  - intros x y Hx Hy. by rewrite Hpix.
  - intros x y Hout. destruct (getpixel img x y) as [c|] eqn:Hget; [|done].
    exfalso. apply Hout.
    by apply (getpixel_Some_window width height x y img c).
Qed.

Lemma create_pixel_image_pixel_values_witness :
  create_pixel_image 3 2 [["stone"; "skin"]; []; ["terrain"]] None
    = Ok (mkImage 3 2 [[(128, 128, 128, 255); (0, 0, 0, 0); (0, 0, 0, 0)];
                       [(0, 0, 0, 0); (0, 0, 0, 0); (0, 0, 0, 0)]]) /\
  getpixel (mkImage 3 2 [[(128, 128, 128, 255); (0, 0, 0, 0); (0, 0, 0, 0)];
                         [(0, 0, 0, 0); (0, 0, 0, 0); (0, 0, 0, 0)]]) 3 0 = None.
Proof.
  assert (Hrun : create_pixel_image 3 2 [["stone"; "skin"]; []; ["terrain"]] None
    = Ok (mkImage 3 2 [[(128, 128, 128, 255); (0, 0, 0, 0); (0, 0, 0, 0)];
                       [(0, 0, 0, 0); (0, 0, 0, 0); (0, 0, 0, 0)]]))
    by (vm_compute; reflexivity).
  split; [exact Hrun|].
  destruct (create_pixel_image_pixel_values 3 2 _ None _ Hrun)
    as (_ & _ & _ & _ & _ & Hout).
  apply Hout. lia.
Defined.



(** X3.  The two nested loops of [create_pixel_image] visit every pixel of
    the image exactly once, in row-major order: the [k]-th pixel visited is
    column [k mod width] of row [k / width], so rows go from the top and
    each row from the left, and the whole call is one pass of the loop body
    over that sequence, stopping at the first failure. *)
Theorem create_pixel_image_row_major (width height : Z)
    (pixels : list (list string)) (palette : option Palette) :
  0 <= width -> 0 <= height ->
  create_pixel_image width height pixels palette =
    (img ← Image_new width height (0, 0, 0, 0);
     for_each (fun img p => paint (color_map_of palette) pixels p.2 img p.1)
              (scan_order width height) img) /\
  length (scan_order width height) = Z.to_nat (width * height) /\
  NoDup (scan_order width height) /\
  (forall x y, (x, y) ∈ scan_order width height <->
               0 <= x < width /\ 0 <= y < height) /\
  (forall k, 0 <= k < width * height ->
     scan_order width height !! Z.to_nat k = Some (k mod width, k / width)).
Proof.
  intros Hw Hh.
  split; [apply create_pixel_image_scan|].
  split; [by apply scan_order_length|].
  split; [|split; [apply elem_of_scan_order|by intros k Hk; apply scan_order_lookup]].
  apply NoDup_alt. intros i j [x y] Hi Hj.
  assert (Hlen := scan_order_length width height Hw Hh).
  apply lookup_lt_Some in Hi as Hilt. apply lookup_lt_Some in Hj as Hjlt.
  rewrite Hlen in Hilt, Hjlt.
  assert (Hpos : 0 < width) by nia.
  rewrite <-(Nat2Z.id i), scan_order_lookup in Hi by lia.
  rewrite <-(Nat2Z.id j), scan_order_lookup in Hj by lia.
  inversion Hi as [[Himod Hidiv]]. inversion Hj as [[Hjmod Hjdiv]].
  apply Nat2Z.inj.
  rewrite (Z.div_mod (Z.of_nat i) width), (Z.div_mod (Z.of_nat j) width) by lia.
  congruence.
Qed.

Lemma create_pixel_image_row_major_witness :
  (0 <= 3 /\ 0 <= 2) /\
  scan_order 3 2 = [(0, 0); (1, 0); (2, 0); (0, 1); (1, 1); (2, 1)] /\
  scan_order 3 2 !! Z.to_nat 4 = Some (4 mod 3, 4 / 3).
Proof.
  assert (Hw : 0 <= 3) by lia.
  assert (Hh : 0 <= 2) by lia.
  split; [exact (conj Hw Hh)|]. split; [reflexivity|].
  destruct (create_pixel_image_row_major 3 2 [] None Hw Hh)
    as (_ & _ & _ & _ & Hk).
  apply Hk. lia.
Defined.

(** X4.  [create_pixel_image] reads the grid only inside the declared image
    size: two grids that hold the same tokens at the coordinates inside the
    image give the same result, image or exception, however they differ in
    extra rows or columns. *)
Theorem create_pixel_image_reads_window_only (width height : Z)
    (pixels1 pixels2 : list (list string)) (palette : option Palette) :
  (forall x y, 0 <= x < width -> 0 <= y < height ->
     cell pixels1 x y = cell pixels2 x y) ->
  create_pixel_image width height pixels1 palette =
  create_pixel_image width height pixels2 palette.
Proof.
  intros Hsame. rewrite !create_pixel_image_scan.
  destruct (Image_new width height (0, 0, 0, 0)) as [img|e]; [|done].
  rewrite !bind_Ok. apply for_each_ext.
  intros t [x y] [Hx Hy]%elem_of_scan_order. simpl.
  rewrite !paint_cell by lia. by rewrite Hsame.
Qed.

Lemma create_pixel_image_reads_window_only_witness :
  create_pixel_image 1 1 [["stone"; "#8B4513"]; ["skin"]] (palette_of "stone_age") =
  create_pixel_image 1 1 [["stone"]] (palette_of "stone_age").
Proof.
  apply (create_pixel_image_reads_window_only 1 1).
  intros x y Hx Hy.
  assert (x = 0) as -> by lia. assert (y = 0) as -> by lia. reflexivity.
Defined.



(** ** The resolution table *)

Lemma foldl_insert_hex_lookup_in (colors : list string)
    (cm : gmap string color_value) (k : string) :
  k ∈ colors ->
  foldl (fun cm color => <[color := Hex color]> cm) cm colors !! k = Some (Hex k).
Proof.
  revert cm. induction colors as [|c colors IH]; intros cm Hk; simpl.
  - by apply elem_of_nil in Hk.
  - destruct (decide (k ∈ colors)) as [Hin|Hnot]; [by apply IH|].
    apply elem_of_cons in Hk as [->|Hk]; [|done].
    rewrite foldl_insert_hex_lookup by done. apply lookup_insert_eq.
Qed.

Lemma foldl_palette_lookup_in (lists : list (list string))
    (cm : gmap string color_value) (k : string) :
  k ∈ mjoin lists ->
  foldl (fun cm era_colors =>
           foldl (fun cm color => <[color := Hex color]> cm) cm era_colors)
        cm lists !! k = Some (Hex k).
Proof.
  revert cm. induction lists as [|l lists IH]; intros cm Hk; simpl.
  - by apply elem_of_nil in Hk.
  - destruct (decide (k ∈ mjoin lists)) as [Hin|Hnot]; [by apply IH|].
    simpl in Hk. apply elem_of_app in Hk as [Hk|Hk]; [|done].
    rewrite foldl_palette_lookup by done. by apply foldl_insert_hex_lookup_in.
Qed.

(** An RGBA entry of either table holds one of the eight fixed colours. *)
Lemma color_map_of_rgba_fixed (palette : option Palette) (k : string) (c : rgba) :
  color_map_of palette !! k = Some (Rgba c) -> c ∈ table_colors.
Proof.
  assert (Hdefault : color_map_of None !! k = Some (Rgba c) -> c ∈ table_colors).
  { unfold color_map_of. intros Hl%elem_of_list_to_map_2. unfold table_colors.
    repeat (apply elem_of_cons in Hl as [Hl|Hl];
            [inversion Hl; subst; repeat (first [by left|right])|]).
    by apply elem_of_nil in Hl. }
  destruct palette as [[|entry pal]|]; [done| |done].
  unfold color_map_of. intros Hl. unfold table_colors.
  repeat (rewrite lookup_insert in Hl; case_decide;
          [inversion Hl; subst; repeat (first [by left|right])|]).
  destruct (decide (k ∈ mjoin ((entry :: pal).*2))) as [Hin|Hnot].
  - by rewrite foldl_palette_lookup_in in Hl.
  - by rewrite foldl_palette_lookup in Hl.
Qed.

(** X6.  The resolution table built from a non-empty palette.  The six
    fixed keys hold their RGBA tuples, also when the palette lists one of
    them as a colour; every other colour string of the palette is a key that
    holds the string itself; nothing else is a key, so a category name
    such as [skin] is a key only if the palette lists it as a colour.  An
    empty palette gives the same table as no palette. *)
Theorem color_map_of_palette_entries (palette : Palette) (k : string) :
  palette <> [] ->
  (color_map_of (Some palette) !! "transparent" = Some (Rgba (0, 0, 0, 0)) /\
   color_map_of (Some palette) !! "#000000" = Some (Rgba (0, 0, 0, 255)) /\
   color_map_of (Some palette) !! "#FFFFFF" = Some (Rgba (255, 255, 255, 255)) /\
   color_map_of (Some palette) !! "#2F2F2F" = Some (Rgba (47, 47, 47, 255)) /\
   color_map_of (Some palette) !! "stone" = Some (Rgba (128, 128, 128, 255)) /\
   color_map_of (Some palette) !! "terrain" = Some (Rgba (139, 69, 19, 255))) /\
  (k ∉ fixed_keys -> k ∈ palette_colors palette ->
     color_map_of (Some palette) !! k = Some (Hex k)) /\
  (k ∉ fixed_keys -> k ∉ palette_colors palette ->
     color_map_of (Some palette) !! k = None) /\
  (is_Some (color_map_of (Some palette) !! k) <->
     k ∈ fixed_keys \/ k ∈ palette_colors palette) /\
  color_map_of (Some []) = color_map_of None.
Proof.
  intros Hne.
  assert (Hfixed :
    color_map_of (Some palette) !! "transparent" = Some (Rgba (0, 0, 0, 0)) /\
    color_map_of (Some palette) !! "#000000" = Some (Rgba (0, 0, 0, 255)) /\
    color_map_of (Some palette) !! "#FFFFFF" = Some (Rgba (255, 255, 255, 255)) /\
    color_map_of (Some palette) !! "#2F2F2F" = Some (Rgba (47, 47, 47, 255)) /\
    color_map_of (Some palette) !! "stone" = Some (Rgba (128, 128, 128, 255)) /\
    color_map_of (Some palette) !! "terrain" = Some (Rgba (139, 69, 19, 255))).
  { destruct palette as [|entry pal]; [done|]. unfold color_map_of.
    repeat split; repeat (rewrite lookup_insert_ne by done); apply lookup_insert_eq. }
  assert (Hhex : k ∉ fixed_keys -> k ∈ palette_colors palette ->
            color_map_of (Some palette) !! k = Some (Hex k)).
  { intros Hfix Hcol. destruct palette as [|entry pal]; [done|].
    unfold color_map_of. unfold fixed_keys in Hfix.
    rewrite !lookup_insert_ne
      by (intros <-; apply Hfix; repeat (first [by left|right])).
    by apply foldl_palette_lookup_in. }
  assert (Hnone : k ∉ fixed_keys -> k ∉ palette_colors palette ->
            color_map_of (Some palette) !! k = None).
  { intros Hfix Hcol. by apply color_map_of_palette_None. }
  split; [done|]. split; [done|]. split; [done|]. split; [|done].
  destruct (decide (k ∈ fixed_keys)) as [Hfix|Hfix].
  - split; [by left|]. intros _.
    destruct Hfixed as (H1 & H2 & H3 & H4 & H5 & H6). unfold fixed_keys in Hfix.
    repeat (apply elem_of_cons in Hfix as [->|Hfix]; [by eexists|]).
    by apply elem_of_nil in Hfix.
  - destruct (decide (k ∈ palette_colors palette)) as [Hcol|Hcol].
    + split; [by right|]. intros _. exists (Hex k). by apply Hhex.
    + pose proof (Hnone Hfix Hcol) as Hn.
      split; [intros [v Hv]; congruence|by intros [?|?]].
Qed.

Lemma color_map_of_palette_entries_witness :
  [("hair", ["#2F2F2F"; "#4A4A4A"; "skin"])] <> [] /\
  color_map_of (Some [("hair", ["#2F2F2F"; "#4A4A4A"; "skin"])]) !! "#2F2F2F"
    = Some (Rgba (47, 47, 47, 255)) /\
  (is_Some (color_map_of (Some [("hair", ["#2F2F2F"; "#4A4A4A"; "skin"])]) !! "skin")
   <-> "skin" ∈ fixed_keys \/
       "skin" ∈ palette_colors [("hair", ["#2F2F2F"; "#4A4A4A"; "skin"])]).
Proof.
  assert (Hne : [("hair", ["#2F2F2F"; "#4A4A4A"; "skin"])] <> ([] : Palette))
    by discriminate.
  split; [exact Hne|].
  destruct (color_map_of_palette_entries
              [("hair", ["#2F2F2F"; "#4A4A4A"; "skin"])] "skin" Hne)
    as ((_ & _ & _ & H2F & _ & _) & _ & _ & Hdom & _).
  exact (conj H2F Hdom).
Defined.

(** X7.  No palette colour ever reaches a pixel.  Whatever the grid and the
    palette, every pixel of an image [create_pixel_image] returns holds one
    of eight fixed RGBA values: transparent, or the colour of one of the
    hard-coded table entries. *)
Theorem create_pixel_image_fixed_colours (width height : Z)
    (pixels : list (list string)) (palette : option Palette) (img : Image)
    (x y : Z) (c : rgba) :
  create_pixel_image width height pixels palette = Ok img ->
  getpixel img x y = Some c ->
  c ∈ table_colors.
Proof.
  intros Hrun Hget.
  destruct (create_pixel_image_pixels width height pixels palette img Hrun)
    as [Hwf Hpix].
  destruct (getpixel_Some_window width height x y img c Hwf Hget) as [Hx Hy].
  rewrite Hpix in Hget by done. inversion Hget as [Hc]. unfold resolved.
  destruct (cell pixels x y) as [tok|]; [|by left].
  destruct (color_map_of palette !! tok) as [[s|c']|] eqn:Hlook; [by left| |by left].
  by apply (color_map_of_rgba_fixed palette tok).
Qed.

Lemma create_pixel_image_fixed_colours_witness :
  create_pixel_image 1 1 [["stone"]] (palette_of "future")
    = Ok (mkImage 1 1 [[(128, 128, 128, 255)]]) /\
  getpixel (mkImage 1 1 [[(128, 128, 128, 255)]]) 0 0 = Some (128, 128, 128, 255) /\
  (128, 128, 128, 255) ∈ table_colors.
Proof.
  assert (Hrun : create_pixel_image 1 1 [["stone"]] (palette_of "future")
                 = Ok (mkImage 1 1 [[(128, 128, 128, 255)]]))
    by (vm_compute; reflexivity).
  assert (Hget : getpixel (mkImage 1 1 [[(128, 128, 128, 255)]]) 0 0
                 = Some (128, 128, 128, 255)) by reflexivity.
  split; [exact Hrun|]. split; [exact Hget|].
  exact (create_pixel_image_fixed_colours 1 1 _ _ _ 0 0 _ Hrun Hget).
Defined.

(** ** The classifiers *)

Lemma grid_of_shape (tok : Z -> Z -> string) (size : Z * Z) :
  length (grid_of tok size) = Z.to_nat size.2 /\
  Forall (fun row => length row = Z.to_nat size.1) (grid_of tok size) /\
  (forall x y, is_Some (cell (grid_of tok size) x y) <->
               0 <= x < size.1 /\ 0 <= y < size.2).
Proof.
  destruct size as [width height]. cbn [fst snd].
  split; [|split].
  - unfold grid_of, range. cbn [fst snd]. by rewrite length_fmap, length_seqZ.
  - unfold grid_of. cbn [fst snd].
    apply Forall_fmap, Forall_forall. intros y _. simpl. unfold range.
    by rewrite length_fmap, length_seqZ.
  - intros x y.
    destruct (decide (0 <= x < width /\ 0 <= y < height)) as [[Hx Hy]|Hout].
    + rewrite cell_grid_of by done. split; [done|by eexists].
    + rewrite cell_grid_of_outside by done. split; [by intros [? ?]|done].
Qed.

(** X8.  Each of the four classifiers returns a grid of exactly the
    requested size: [height] rows of [width] tokens, so a cell exists
    exactly at the coordinates [0 <= x < width], [0 <= y < height]; a width
    or height of zero or less gives no cells instead of failing. *)
Theorem classifier_grid_shape (name : string) (size : Z * Z) :
  let shaped (grid : list (list string)) :=
    length grid = Z.to_nat size.2 /\
    Forall (fun row => length row = Z.to_nat size.1) grid /\
    (forall x y, is_Some (cell grid x y) <-> 0 <= x < size.1 /\ 0 <= y < size.2) in
  shaped (generate_npc_base_sprite size) /\
  shaped (generate_building_sprite name size) /\
  shaped (generate_terrain_tile size) /\
  shaped (generate_ui_icon name size).
Proof.
  intros shaped. unfold shaped.
  rewrite generate_npc_base_sprite_grid, generate_building_sprite_grid,
    generate_terrain_tile_grid, generate_ui_icon_grid.
  split; [apply grid_of_shape|].
  split; [apply grid_of_shape|].
  split; apply grid_of_shape.
Qed.

(** X9.  The character classifier knows two bands only, whatever the
    requested size: rows [y < 8] (head and neck) are [skin] and rows
    [y >= 8] (body and legs) are [clothing], the same in every column. *)
Theorem npc_rows_skin_then_clothing (W H x y : Z) :
  0 <= x < W -> 0 <= y < H ->
  (y < 8 -> cell (generate_npc_base_sprite (W, H)) x y = Some "skin") /\
  (8 <= y -> cell (generate_npc_base_sprite (W, H)) x y = Some "clothing").
Proof.
  intros Hx Hy. rewrite generate_npc_base_sprite_grid, cell_grid_of by done.
  unfold npc_token. split; intros Hband.
  - destruct (y <? 4) eqn:H4; [done|]. by replace (y <? 8) with true by lia.
  - replace (y <? 4) with false by lia. replace (y <? 8) with false by lia.
    by destruct (y <? 16).
Qed.

Lemma npc_rows_skin_then_clothing_witness :
  (0 <= 15 < 16 /\ 0 <= 7 < 24) /\
  (7 < 8 -> cell (generate_npc_base_sprite npc_default_size) 15 7 = Some "skin") /\
  (8 <= 7 ->
   cell (generate_npc_base_sprite npc_default_size) 15 7 = Some "clothing").
Proof.
  assert (Hx : 0 <= 15 < 16) by lia.
  assert (Hy : 0 <= 7 < 24) by lia.
  split; [exact (conj Hx Hy)|].
  exact (npc_rows_skin_then_clothing 16 24 15 7 Hx Hy).
Defined.






(** ** The driver *)


(** X13.  A run of [main] writes 222 files, 221 images and the JSON
    descriptor, to 222 different paths: no file of a run is overwritten by a
    later one of the same run. *)
Theorem main_writes_distinct_files (output : option string) (tr : trace) :
  exists evs,
    main output tr = Ok (tr ++ evs) /\
    length (written_paths evs) = 222%nat /\
    NoDup (written_paths evs).
Proof.
  set (out := default default_output output).
  exists (sprite_events out
            ++ [DumpJson (Path_of out // "sprite_atlas_config.json") atlas_config 2]).
  split.
  { unfold main. fold out. rewrite generate_all_sprites_trace, bind_Ok.
    unfold create_sprite_atlas_config. by rewrite <-!app_assoc. }
  split; [by vm_compute|].
  generalize out. clear. intros out.
  assert (Hpaths :
    written_paths (sprite_events out
      ++ [DumpJson (Path_of out // "sprite_atlas_config.json") atlas_config 2])
    = cons out <$>
        (tail <$> written_paths (sprite_events ""
           ++ [DumpJson (Path_of "" // "sprite_atlas_config.json") atlas_config 2])))
    by (by vm_compute).
  rewrite Hpaths. apply NoDup_fmap_2; [by intros p q [=]|].
  apply (bool_decide_unpack _). by vm_compute.
Qed.


(** ** The order of the requests *)

Lemma self_in_ancestors (p : Path) : p <> [] -> p ∈ ancestors_and_self p.
Proof.
  induction p as [|c p IH]; [done|]. intros _. simpl.
  destruct p as [|c' p]; [by left|].
  right. apply list_elem_of_fmap_2. by apply IH.
Qed.

Lemma requests_in_order_mono (dirs dirs' : list Path) (tr : list event) :
  dirs ⊆ dirs' -> requests_in_order dirs tr -> requests_in_order dirs' tr.
Proof.
  revert dirs dirs'. induction tr as [|ev tr IH]; intros dirs dirs' Hsub; [done|].
  simpl. intros [Hneed Hrest]. split.
  - intros d Hd. by apply Hsub, Hneed.
  - apply (IH (dirs_made ev ++ dirs)); [|done].
    intros d [Hd|Hd]%elem_of_app; apply elem_of_app; [by left|right; by apply Hsub].
Qed.

Lemma in_order_given_app (required : list Path) (tr1 tr2 : list event) :
  in_order_given required tr1 -> in_order_given required tr2 ->
  in_order_given required (tr1 ++ tr2).
Proof.
  intros H1 H2 dirs Hsub. specialize (H1 dirs Hsub).
  revert dirs Hsub H1. induction tr1 as [|ev tr1 IH]; intros dirs Hsub H1; simpl.
  - by apply H2.
  - destruct H1 as [Hneed Hrest]. split; [done|].
    apply IH; [|done]. intros d Hd. apply elem_of_app. right. by apply Hsub.
Qed.

Lemma in_order_given_bind {A : Type} (required : list Path)
    (g : A -> list event) (l : list A) :
  (forall a, a ∈ l -> in_order_given required (g a)) ->
  in_order_given required (l ≫= g).
Proof.
  induction l as [|a l IH]; intros Hg; [by intros dirs _|].
  change ((a :: l) ≫= g) with (g a ++ (l ≫= g)).
  apply in_order_given_app; [apply Hg; by left|].
  apply IH. intros b Hb. apply Hg. by right.
Qed.

Lemma in_order_given_weaken (required required' : list Path) (tr : list event) :
  required ⊆ required' -> in_order_given required tr ->
  in_order_given required' tr.
Proof. intros Hsub Htr dirs Hdirs. apply Htr. by etrans. Qed.

(** Saving an image needs nothing beforehand: [save_sprite_pil] makes the
    directory of the file first. *)
Lemma in_order_given_saved (file : Path) (img : Image) :
  dirname file <> [] -> in_order_given [] (saved file img).
Proof.
  intros Hdir dirs _. unfold saved. simpl. split; [done|]. split; [|done].
  intros d [= <-]. apply elem_of_app. left. by apply self_in_ancestors.
Qed.

(** A directory made without [parents] needs its parent, and is there for
    what follows. *)
Lemma in_order_given_mkdir (required : list Path) (p : Path) (exist_ok : bool)
    (rest : list event) :
  dirname p ∈ required ->
  in_order_given (p :: required) rest ->
  in_order_given required (Mkdir p false exist_ok :: rest).
Proof.
  intros Hparent Hrest dirs Hsub.
  change ((forall d, Some (dirname p) = Some d -> d ∈ dirs) /\
          requests_in_order ([p] ++ dirs) rest).
  split.
  - intros d [= <-]. by apply Hsub.
  - apply Hrest. intros d [->|Hd]%elem_of_cons; [by left|].
    right. by apply Hsub.
Qed.

Lemma in_order_given_npc_events (output_dir : string) :
  in_order_given [sprites_dir output_dir // "NPCs"] (npc_events output_dir).
Proof.
  unfold npc_events. apply in_order_given_bind. intros era _.
  apply in_order_given_mkdir; [by left|].
  apply in_order_given_bind. intros animation _.
  apply in_order_given_mkdir; [by left|].
  apply (in_order_given_weaken []); [by intros d Hd%elem_of_nil|].
  apply in_order_given_bind. intros direction _.
  by apply in_order_given_saved.
Qed.

(** The order matters: an era directory cannot be made before the directory
    above it, nor an image saved before its directory is made. *)
Example requests_out_of_order :
  ~ requests_in_order []
      [Mkdir ["out"; "Sprites"; "NPCs"; "stone_age"] false true] /\
  ~ requests_in_order []
      [SavePng ["out"; "Sprites"; "UI"; "food.png"] (blank 16 16);
       Makedirs ["out"; "Sprites"; "UI"] true] /\
  requests_in_order []
      [Makedirs ["out"; "Sprites"; "UI"] true;
       SavePng ["out"; "Sprites"; "UI"; "food.png"] (blank 16 16)].
Proof.
  split; [|split].
  - intros [Hneed _]. specialize (Hneed _ eq_refl). by apply elem_of_nil in Hneed.
  - intros [Hneed _]. specialize (Hneed _ eq_refl). by apply elem_of_nil in Hneed.
  - split; [done|]. split; [|done]. intros d [= <-]. do 2 right. by left.
Qed.

(** X15.  The requests of a run of [main] come in an order the file system
    can serve, starting from nothing but the working directory: a directory
    made without [parents] has its parent made earlier in the run, and every
    image, and the JSON descriptor, is written into a directory made
    earlier in the run. *)
Theorem main_requests_in_order (output : option string) :
  exists evs, main output [] = Ok evs /\ requests_in_order [] evs.
Proof.
  set (out := default default_output output).
  exists (sprite_events out
            ++ [DumpJson (Path_of out // "sprite_atlas_config.json") atlas_config 2]).
  split.
  { unfold main. fold out. by rewrite generate_all_sprites_trace, bind_Ok. }
  generalize out. clear. intros out.
  unfold sprite_events, setup_events. rewrite <-!app_assoc.
  cbn [app requests_in_order dir_needed dirs_made].
  do 4 (split; [done|]).
  apply (in_order_given_app [sprites_dir out // "NPCs"; Path_of out]).
  { apply (in_order_given_weaken [sprites_dir out // "NPCs"]);
      [|apply in_order_given_npc_events].
    intros d Hd%list_elem_of_singleton. subst d. by left. }
  2:{ intros d Hd.
      apply elem_of_cons in Hd as [->|Hd%list_elem_of_singleton]; subst;
        vm_compute; repeat (first [by left|right]). }
  apply in_order_given_app; [|apply in_order_given_app; [|apply in_order_given_app]].
  - apply (in_order_given_weaken []); [by intros d Hd%elem_of_nil|].
    apply in_order_given_bind. intros b _. by apply in_order_given_saved.
  - apply (in_order_given_weaken []); [by intros d Hd%elem_of_nil|].
    apply in_order_given_bind. intros b _. by apply in_order_given_saved.
  - apply (in_order_given_weaken []); [by intros d Hd%elem_of_nil|].
    apply in_order_given_bind. intros b _. by apply in_order_given_saved.
  - intros dirs Hsub. simpl. split; [|done].
    intros d [= <-]. apply Hsub. right. by left.
Qed.
